(** * Session validation and refresh core of [backend/server.js]

    A shallow embedding of the anti-forgery (CSRF) token cache, the token
    acquirer, the session validator and the session refresher, together
    with the properties the specification states about them.

    The program talks to the outside world in two ways: [fetch] and
    [Date.now()].  Both are modelled by oracles.  [upstream] answers a
    request given the list of requests issued before it, so the same
    request may be answered differently at different moments; [clock]
    gives the value of the n-th reading of [Date.now()].  Every [fetch]
    call is appended to a log kept in the state, which is what the
    theorems about "how many requests" and "which requests" talk about. *)

From Stdlib Require Import ZArith Ascii.
From stdpp Require Import base gmap strings list pretty.

Local Open Scope Z_scope.

(** ** Values exchanged with the platform *)

(** The result of an operation that may throw.  A thrown JavaScript error
    is represented by its [message], the only part the program reads. *)
Inductive Completion (A : Type) : Type :=
  | Normal (a : A)
  | Throw (message : string).
Arguments Normal {A} a.
Arguments Throw {A} message.

(** Parsed JSON, as produced by [response.json()].  Numbers are kept as
    their literal text. *)
#[warnings="-register-all"]
Inductive Json : Type :=
  | JNull
  | JBool (b : bool)
  | JNum (literal : string)
  | JStr (s : string)
  | JArr (items : list Json)
  | JObj (fields : list (string * Json)).

(** A JavaScript value read out of parsed JSON: a property that is not
    there reads as [undefined]. *)
Inductive JSValue : Type :=
  | JSUndefined
  | JSJson (j : Json).

Inductive Method : Type := GET | POST.

(** The [redirect] option of node-fetch. *)
Inductive RedirectMode : Type := RedirectFollow | RedirectManual | RedirectError.

(** The [X-CSRF-TOKEN] request header: not set at all, or set from the
    variable [csrfToken], whose value is a string or [null]. *)
Inductive CsrfHeader : Type :=
  | NoCsrfHeader
  | CsrfHeaderOf (csrfToken : option string).

(** The arguments of one [fetch] call.  The browser-identifying headers
    (User-Agent, Accept, Accept-Language, Referer, Origin) are the same
    literal at every call site and are left out.  [redirect] is [None]
    where the call site passes no [redirect] option. *)
Record Request : Type := {
  url : string;
  method : Method;
  Cookie : string;
  X_CSRF_TOKEN : CsrfHeader;
  Content_Type : option string;
  body : option string;
  redirect : option RedirectMode
}.

(** What the program can observe of a response. [x_csrf_token] and
    [www_authenticate] are the results of [response.headers.get] ([None]
    is [null]); [text] and [json] are the results of awaiting
    [response.text()] and [response.json()]. *)
Record Response : Type := {
  status : Z;
  x_csrf_token : option string;
  www_authenticate : option string;
  text : Completion string;
  json : Completion Json
}.

(** An element of the two [endpoints] arrays; [None] is a property the
    object literal does not have. *)
Record Endpoint : Type := {
  endpoint_url : string;
  endpoint_method : Method;
  endpoint_body : option string;
  description : option string
}.

(** An entry of the [csrfTokens] map. *)
Record TokenData : Type := {
  token : string;
  timestamp : Z
}.

(** The object returned by [validateCookieWithRoblox]; [None] is an
    absent property. *)
Record ValidationOutcome : Type := {
  valid : bool;
  userId : option JSValue;
  username : option JSValue;
  displayName : option JSValue;
  error : option string
}.

(** The object returned by [refreshCookieWithRoblox]. *)
Record RefreshOutcome : Type := {
  refreshed : bool;
  cookie : option string;
  warning : option string;
  refresh_error : option string
}.

(** ** Program state *)

(** [csrfTokens] is the module-level [Map]; [requests] is the log of
    [fetch] calls in the order they were issued; [clock_reads] counts the
    calls of [Date.now()]. *)
Record World : Type := {
  csrfTokens : gmap string TokenData;
  requests : list Request;
  clock_reads : nat
}.

Definition M (A : Type) : Type := World -> Completion A * World.

Definition ret {A} (a : A) : M A := fun w => (Normal a, w).

Definition bind {A B} (m : M A) (k : A -> M B) : M B :=
  fun w =>
    match m w with
    | (Normal a, w') => k a w'
    | (Throw e, w') => (Throw e, w')
    end.

(** [try { m } catch (error) { handler error.message }] *)
Definition try_catch {A} (m : M A) (handler : string -> M A) : M A :=
  fun w =>
    match m w with
    | (Normal a, w') => (Normal a, w')
    | (Throw e, w') => handler e w'
    end.

(** [try { m; k } catch { handler }] where only [m] can throw and the
    handler ignores the error: used where the [try] block assigns local
    variables that the [catch] block and the code after it still see. *)
Definition catching {A B} (m : M A) (handler : M B) (k : A -> M B) : M B :=
  fun w =>
    match m w with
    | (Normal a, w') => k a w'
    | (Throw _, w') => handler w'
    end.

(** Awaiting an operation on a response that is already in hand. *)
Definition await {A} (c : Completion A) : M A := fun w => (c, w).

Notation "'let!' x ':=' m 'in' k" := (bind m (fun x => k))
  (at level 10, x name, m at level 100, k at level 200).
Notation "'do!' m 'in' k" := (bind m (fun _ => k))
  (at level 10, m at level 100, k at level 200).

(** ** JavaScript helpers *)

(** A string or [null] used as a condition: [null] and the empty string
    are falsy.  The result is the string when it is truthy. *)
Definition truthy (v : option string) : option string :=
  match v with
  | Some s => if String.eqb s "" then None else Some s
  | None => None
  end.

(** [haystack.includes(needle)] *)
Definition includes (haystack needle : string) : bool :=
  match String.index 0 needle haystack with
  | Some _ => true
  | None => false
  end.

(** [response.ok] *)
Definition ok (r : Response) : bool :=
  (200 <=? status r) && (status r <? 300).

(** Reading property [key] of a parsed JSON value.  Reading a property of
    [null] throws a TypeError; objects give the value of the last field
    of that name; every other JSON value has no such property.  The
    message of the TypeError is the one of recent versions of V8; the
    statements below do not go by its text. *)
Fixpoint field_of (key : string) (fields : list (string * Json)) : JSValue :=
  match fields with
  | [] => JSUndefined
  | (k, v) :: rest =>
      match field_of key rest with
      | JSJson later => JSJson later
      | JSUndefined => if String.eqb k key then JSJson v else JSUndefined
      end
  end.

Definition get_property (userData : Json) (key : string) : Completion JSValue :=
  match userData with
  | JNull => Throw ("Cannot read properties of null (reading '" +:+ key +:+ "')")
  | JObj fields => Normal (field_of key fields)
  | _ => Normal JSUndefined
  end.

(** Whether converting a parsed JSON value to a string throws.  Primitives
    convert.  An object converts through the [toString] it inherits, to
    ["[object Object]"], unless it has a property [toString] of its own:
    no JSON value is callable, the inherited [valueOf] returns the object
    itself, and the conversion ends in a TypeError.  An array joins the
    conversions of its elements. *)
Fixpoint conversion_throws (value : Json) : bool :=
  match value with
  | JObj fields => existsb (fun field => String.eqb (fst field) "toString") fields
  | JArr items => existsb conversion_throws items
  | _ => false
  end.

(** The substitution [${value}] of a template literal.  Only whether it
    throws matters here: the string it builds goes to the console.  The
    message is the one of V8. *)
Definition template_literal (value : JSValue) : Completion unit :=
  match value with
  | JSUndefined => Normal tt
  | JSJson j =>
      if conversion_throws j
      then Throw "Cannot convert object to primitive value"
      else Normal tt
  end.

(** [prefix + value] where [value] may be [undefined]. *)
Definition concat_error (prefix : string) (value : option string) : string :=
  prefix +:+ default "undefined" value.

(** ** The oracles and the functions of the program *)

Section Core.

(** The platform and the clock are arbitrary and fixed for a run. *)

Variable upstream : list Request -> Request -> Completion Response.
Variable clock : nat -> Z.

(** [Date.now()] *)
Definition Date_now : M Z :=
  fun w =>
    (Normal (clock (clock_reads w)),
     {| csrfTokens := csrfTokens w;
        requests := requests w;
        clock_reads := S (clock_reads w) |}).

(** [await fetch(url, options)] *)
Definition fetch (request : Request) : M Response :=
  fun w =>
    (upstream (requests w) request,
     {| csrfTokens := csrfTokens w;
        requests := requests w ++ [request];
        clock_reads := clock_reads w |}).

Definition csrfTokens_set (robloxCookie : string) (data : TokenData) : M unit :=
  fun w =>
    (Normal tt,
     {| csrfTokens := <[robloxCookie := data]> (csrfTokens w);
        requests := requests w;
        clock_reads := clock_reads w |}).

Definition csrfTokens_delete (robloxCookie : string) : M unit :=
  fun w =>
    (Normal tt,
     {| csrfTokens := delete robloxCookie (csrfTokens w);
        requests := requests w;
        clock_reads := clock_reads w |}).

Definition csrfTokens_get (robloxCookie : string) : M (option TokenData) :=
  fun w => (Normal (csrfTokens w !! robloxCookie), w).

(** *** Token cache *)

Definition getStoredCSRFToken (robloxCookie : string) : M (option string) :=
  let! tokenData := csrfTokens_get robloxCookie in
  match tokenData with
  | None => ret None
  | Some tokenData =>
      let! now := Date_now in
      if now - timestamp tokenData <? 5 * 60 * 1000
      then ret (Some (token tokenData))
      else do! csrfTokens_delete robloxCookie in ret None
  end.

Definition storeCSRFToken (robloxCookie token : string) : M unit :=
  let! now := Date_now in
  csrfTokens_set robloxCookie {| token := token; timestamp := now |}.

(** *** Token acquirer *)

(** The [requestOptions] built for one candidate endpoint. *)
Definition probe_request (robloxCookie : string) (endpoint : Endpoint) : Request :=
  {| url := endpoint_url endpoint;
     method := endpoint_method endpoint;
     Cookie := ".ROBLOSECURITY=" +:+ robloxCookie;
     X_CSRF_TOKEN := NoCsrfHeader;
     Content_Type := None;
     body := None;
     redirect := Some RedirectManual |}.

(** The body of the [for] loop of [getCSRFToken], over the endpoints
    that remain.  The [try] block yields [Some token] when it executes
    [return csrfToken] and [None] when the iteration ends, by [continue]
    or by reaching the end of the block; the [catch] block continues. *)
Fixpoint getCSRFToken_loop (robloxCookie : string)
    (endpoints : list Endpoint) : M (option string) :=
  match endpoints with
  | [] => ret None
  | endpoint :: rest =>
      let! returned :=
        try_catch
          (let! response := fetch (probe_request robloxCookie endpoint) in
           match truthy (x_csrf_token response) with
           | Some csrfToken =>
               do! storeCSRFToken robloxCookie csrfToken in
               ret (Some csrfToken)
           | None =>
               if status response =? 403 then
                 match truthy (www_authenticate response) with
                 | Some wwwAuthenticate =>
                     if includes wwwAuthenticate "X-CSRF-TOKEN"
                     then ret None
                     else ret None
                 | None => ret None
                 end
               else ret None
           end)
          (fun _ => ret None) in
      match returned with
      | Some csrfToken => ret (Some csrfToken)
      | None => getCSRFToken_loop robloxCookie rest
      end
  end.

Definition csrf_endpoints : list Endpoint :=
  [ {| endpoint_url := "https://auth.roblox.com/v2/login";
       endpoint_method := POST; endpoint_body := None; description := None |};
    {| endpoint_url := "https://www.roblox.com/home";
       endpoint_method := GET; endpoint_body := None; description := None |};
    {| endpoint_url := "https://users.roblox.com/v1/users/authenticated";
       endpoint_method := GET; endpoint_body := None; description := None |};
    {| endpoint_url := "https://itemconfiguration.roblox.com/v1/creations/get-asset-details";
       endpoint_method := POST; endpoint_body := None; description := None |} ].

Definition getCSRFToken (robloxCookie : string) : M (option string) :=
  getCSRFToken_loop robloxCookie csrf_endpoints.

(** *** Session validator *)

(** The options of the two [fetch] calls of the validator: headers only,
    so [method], [body] and [redirect] are node-fetch's defaults. *)
Definition identity_request (robloxCookie csrfToken : string) : Request :=
  {| url := "https://users.roblox.com/v1/users/authenticated";
     method := GET;
     Cookie := ".ROBLOSECURITY=" +:+ robloxCookie;
     X_CSRF_TOKEN := CsrfHeaderOf (Some csrfToken);
     Content_Type := None;
     body := None;
     redirect := None |}.

Definition invalid (message : string) : ValidationOutcome :=
  {| valid := false; userId := None; username := None; displayName := None;
     error := Some message |}.

(** [responseText.includes('Token Validation Failed') ||
     responseText.includes('CSRF')] *)
Definition csrf_rejection (responseText : string) : bool :=
  includes responseText "Token Validation Failed" || includes responseText "CSRF".

(** [{ valid: true, userId: userData.id, username: userData.name,
       displayName: userData.displayName }] *)
Definition identity_of (userData : Json) : M ValidationOutcome :=
  let! id := await (get_property userData "id") in
  let! name := await (get_property userData "name") in
  let! display := await (get_property userData "displayName") in
  ret {| valid := true; userId := Some id; username := Some name;
         displayName := Some display; error := None |}.

(** [getStoredCSRFToken(robloxCookie) || await getCSRFToken(robloxCookie)] *)
Definition stored_or_fetched (robloxCookie : string) : M (option string) :=
  let! stored := getStoredCSRFToken robloxCookie in
  match truthy stored with
  | Some csrfToken => ret (Some csrfToken)
  | None => getCSRFToken robloxCookie
  end.

(** What follows the first identity request, given its response.  When
    that response is accepted, the line written to the console reads
    [userData.name] and converts it to a string before the outcome is
    built; the path of the retry has no such line. *)
Definition validate_response (robloxCookie : string) (response : Response)
    : M ValidationOutcome :=
  if status response =? 401 then
    ret (invalid "Cookie is invalid or expired")
  else if status response =? 403 then
    let! responseText := await (text response) in
    if csrf_rejection responseText then
      let! csrfToken := getCSRFToken robloxCookie in
      match truthy csrfToken with
      | None => ret (invalid "Could not obtain valid CSRF token")
      | Some csrfToken =>
          let! retryResponse := fetch (identity_request robloxCookie csrfToken) in
          if negb (ok retryResponse) then
            ret (invalid ("Roblox API returned " +:+ pretty (status retryResponse)
                          +:+ " - Cookie may be invalid"))
          else
            let! userData := await (json retryResponse) in
            identity_of userData
      end
    else
      ret (invalid "Access forbidden (403). Cookie may have insufficient permissions.")
  else if negb (ok response) then
    ret (invalid ("Roblox API returned " +:+ pretty (status response)))
  else
    let! userData := await (json response) in
    let! name := await (get_property userData "name") in
    do! await (template_literal name) in
    identity_of userData.

(** The [try] block of [validateCookieWithRoblox]. *)
Definition validate_try (robloxCookie : string) : M ValidationOutcome :=
  let! csrfToken := stored_or_fetched robloxCookie in
  match truthy csrfToken with
  | None => ret (invalid "Could not obtain CSRF token for validation")
  | Some csrfToken =>
      let! response := fetch (identity_request robloxCookie csrfToken) in
      validate_response robloxCookie response
  end.

Definition validateCookieWithRoblox (robloxCookie : string) : M ValidationOutcome :=
  try_catch (validate_try robloxCookie) (fun message => ret (invalid message)).

(** *** Session refresher *)

(** [JSON.stringify({ items: [{ id: 1, itemType: 'Asset' }] })] *)
Definition catalog_body : string :=
  let q := String "034"%char EmptyString in
  "{" +:+ q +:+ "items" +:+ q +:+ ":[{" +:+ q +:+ "id" +:+ q +:+ ":1,"
  +:+ q +:+ "itemType" +:+ q +:+ ":" +:+ q +:+ "Asset" +:+ q +:+ "}]}".

Definition refresh_endpoints : list Endpoint :=
  [ {| endpoint_url := "https://economy.roblox.com/v1/user/currency";
       endpoint_method := GET; endpoint_body := None;
       description := Some "Economy endpoint" |};
    {| endpoint_url := "https://thumbnails.roblox.com/v1/users/avatar";
       endpoint_method := GET; endpoint_body := None;
       description := Some "Avatar endpoint" |};
    {| endpoint_url := "https://catalog.roblox.com/v1/catalog/items/details";
       endpoint_method := POST; endpoint_body := Some catalog_body;
       description := Some "Catalog endpoint" |} ].

(** The [requestOptions] of the refresher for one endpoint, with the
    current value of the variable [csrfToken]; the retry sends the same
    object after assigning the new token to its header. *)
Definition refresh_request (robloxCookie : string) (csrfToken : option string)
    (endpoint : Endpoint) : Request :=
  {| url := endpoint_url endpoint;
     method := endpoint_method endpoint;
     Cookie := ".ROBLOSECURITY=" +:+ robloxCookie;
     X_CSRF_TOKEN := CsrfHeaderOf csrfToken;
     Content_Type := Some "application/json";
     body := truthy (endpoint_body endpoint);
     redirect := Some RedirectManual |}.

(** [status === 200 || status === 201 || status === 204] *)
Definition session_active (status : Z) : bool :=
  (status =? 200) || (status =? 201) || (status =? 204).

Definition refresh_success (robloxCookie : string) : RefreshOutcome :=
  {| refreshed := true; cookie := Some robloxCookie; warning := None;
     refresh_error := None |}.

Definition refresh_failure (message : string) : RefreshOutcome :=
  {| refreshed := false; cookie := None; warning := None;
     refresh_error := Some message |}.

Definition refresh_unconfirmed (robloxCookie : string) : RefreshOutcome :=
  {| refreshed := true; cookie := Some robloxCookie;
     warning := Some "Refresh confirmation failed but cookie appears valid";
     refresh_error := None |}.

(** How the [for] loop of the refresher ends: by a [return] inside it,
    or by running out of endpoints, with the value [lastResponse] has
    then. *)
Inductive LoopExit : Type :=
  | Returned (outcome : RefreshOutcome)
  | Exhausted (lastResponse : option Response).

(** The [for] loop of [refreshCookieWithRoblox] over the endpoints that
    remain, with the current values of the local variables [csrfToken]
    and [lastResponse].  [continue] stands for going on with the next
    endpoint, which is also what the [catch] block does, and what
    happens when the end of the [try] block is reached. *)
Fixpoint refresh_loop (robloxCookie : string) (endpoints : list Endpoint)
    (csrfToken : option string) (lastResponse : option Response) : M LoopExit :=
  match endpoints with
  | [] => ret (Exhausted lastResponse)
  | endpoint :: rest =>
      let continue := refresh_loop robloxCookie rest in
      catching (fetch (refresh_request robloxCookie csrfToken endpoint))
        (continue csrfToken lastResponse)
        (fun response =>
           let lastResponse := Some response in
           let check_401 :=
             if status response =? 401
             then ret (Returned (refresh_failure "Cookie is invalid or expired"))
             else continue csrfToken lastResponse in
           if session_active (status response) then
             ret (Returned (refresh_success robloxCookie))
           else if status response =? 403 then
             catching (await (text response))
               (continue csrfToken lastResponse)
               (fun responseText =>
                  if csrf_rejection responseText then
                    catching (getCSRFToken robloxCookie)
                      (continue csrfToken lastResponse)
                      (fun csrfToken =>
                         match truthy csrfToken with
                         | Some _ =>
                             catching
                               (fetch (refresh_request robloxCookie csrfToken endpoint))
                               (continue csrfToken lastResponse)
                               (fun retryResponse =>
                                  if session_active (status retryResponse)
                                  then ret (Returned (refresh_success robloxCookie))
                                  else continue csrfToken lastResponse)
                         | None => continue csrfToken lastResponse
                         end)
                  else check_401)
           else check_401)
  end.

(** The code after the loop. *)
Definition after_loop (robloxCookie : string) (lastResponse : option Response)
    : RefreshOutcome :=
  match lastResponse with
  | Some lastResponse =>
      if (status lastResponse =? 403) || (status lastResponse =? 401)
      then refresh_failure "Cookie could not be refreshed due to authentication errors"
      else refresh_unconfirmed robloxCookie
  | None => refresh_unconfirmed robloxCookie
  end.

(** From the declaration of [endpoints] to the end of the [try] block. *)
Definition refresh_endpoints_phase (robloxCookie : string) (csrfToken : option string)
    : M RefreshOutcome :=
  let! exit := refresh_loop robloxCookie refresh_endpoints csrfToken None in
  match exit with
  | Returned outcome => ret outcome
  | Exhausted lastResponse => ret (after_loop robloxCookie lastResponse)
  end.

(** From "Get CSRF token first" to the end of the second
    [if (!csrfToken)] block: [inl outcome] when a [return] statement
    was executed, [inr csrfToken] when control goes on to the endpoints
    with that value of the variable [csrfToken]. *)
Definition refresh_csrf_token (robloxCookie : string)
    : M (RefreshOutcome + option string) :=
  let! csrfToken := getStoredCSRFToken robloxCookie in
  let! first :=
    match truthy csrfToken with
    | Some _ => ret (inr csrfToken)
    | None =>
        let! validation := validateCookieWithRoblox robloxCookie in
        if negb (valid validation) then
          ret (inl (refresh_failure
                      (concat_error "Cannot refresh invalid cookie: "
                                    (error validation))))
        else
          let! csrfToken := getStoredCSRFToken robloxCookie in
          ret (inr csrfToken)
    end in
  match first with
  | inl outcome => ret (inl outcome)
  | inr csrfToken =>
      match truthy csrfToken with
      | Some _ => ret (inr csrfToken)
      | None =>
          let! csrfToken := getCSRFToken robloxCookie in
          match truthy csrfToken with
          | None =>
              ret (inl (refresh_failure "Could not obtain CSRF token for refresh"))
          | Some _ => ret (inr csrfToken)
          end
      end
  end.

(** The [try] block of [refreshCookieWithRoblox]. *)
Definition refresh_try (robloxCookie : string) : M RefreshOutcome :=
  let! resolved := refresh_csrf_token robloxCookie in
  match resolved with
  | inl outcome => ret outcome
  | inr csrfToken => refresh_endpoints_phase robloxCookie csrfToken
  end.

Definition refreshCookieWithRoblox (robloxCookie : string) : M RefreshOutcome :=
  try_catch (refresh_try robloxCookie) (fun message => ret (refresh_failure message)).


(** ** Observations on a run

    The vocabulary of the theorems: what the log of requests and the
    answers of the platform say about a run. *)

(** The number of requests of a log that satisfy [p]. *)
Definition count_requests (p : Request -> bool) (log : list Request) : nat :=
  length (List.filter p log).

(** A request of the validator to the "who am I" endpoint: it carries the
    anti-forgery header, which the probe of the acquirer to the same
    address does not. *)
Definition is_identity_request (request : Request) : bool :=
  String.eqb (url request) "https://users.roblox.com/v1/users/authenticated"
  && match X_CSRF_TOKEN request with
     | CsrfHeaderOf _ => true
     | NoCsrfHeader => false
     end.

(** The number of identity requests in a log. *)
Definition identity_requests (log : list Request) : nat :=
  count_requests is_identity_request log.

(** No request, or one identity request of the validator for the session. *)
Definition at_most_one_identity (robloxCookie : string) (log : list Request) : Prop :=
  log = [] \/ exists csrfToken, log = [identity_request robloxCookie csrfToken].

(** A request to one of the session-extending endpoints. *)
Definition is_refresh_request (request : Request) : bool :=
  bool_decide (url request ∈ map endpoint_url refresh_endpoints).

(** node-fetch follows redirects unless the options say 'manual' or
    'error'; its default is 'follow'. *)
Definition follows_redirects (request : Request) : bool :=
  match redirect request with
  | Some RedirectManual | Some RedirectError => false
  | Some RedirectFollow | None => true
  end.

(** The token an answer hands out: the value of a truthy [x-csrf-token]
    response header. *)
Definition offered_token (answer : Completion Response) : option string :=
  match answer with
  | Normal response => truthy (x_csrf_token response)
  | Throw _ => None
  end.

(** The value of the [x-csrf-token] response header of an answer. *)
Definition header_token (answer : Completion Response) : option string :=
  match answer with
  | Normal response => x_csrf_token response
  | Throw _ => None
  end.

(** The world after a request has been logged. *)
Definition logged (request : Request) (w : World) : World :=
  {| csrfTokens := csrfTokens w;
     requests := requests w ++ [request];
     clock_reads := clock_reads w |}.

(** The world after [token] has been stored for [robloxCookie] at time
    [now]. *)
Definition cached (robloxCookie token : string) (now : Z) (w : World) : World :=
  {| csrfTokens := <[robloxCookie := {| token := token; timestamp := now |}]>
                     (csrfTokens w);
     requests := requests w;
     clock_reads := S (clock_reads w) |}.

(** The requests of a run of the acquirer that stops after [n] probes. *)
Definition probes (robloxCookie : string) (endpoints : list Endpoint) (n : nat)
    : list Request :=
  map (probe_request robloxCookie) (take n endpoints).

(** The answer to probe number [i] (from 0) of a run of the acquirer that
    starts when the log is [log], if that probe is issued. *)
Definition probe_answer (robloxCookie : string) (log : list Request)
    (endpoints : list Endpoint) (i : nat) : option (Completion Response) :=
  match endpoints !! i with
  | Some endpoint =>
      Some (upstream (log ++ probes robloxCookie endpoints i)
                     (probe_request robloxCookie endpoint))
  | None => None
  end.

(** The token that probe offers, if it offers one. *)
Definition probe_offer (robloxCookie : string) (log : list Request)
    (endpoints : list Endpoint) (i : nat) : option string :=
  match probe_answer robloxCookie log endpoints i with
  | Some answer => offered_token answer
  | None => None
  end.

(** The value of the [x-csrf-token] header of that probe's answer, if the
    answer has the header. *)
Definition probe_header (robloxCookie : string) (log : list Request)
    (endpoints : list Endpoint) (i : nat) : option string :=
  match probe_answer robloxCookie log endpoints i with
  | Some answer => header_token answer
  | None => None
  end.

(** A request to a session-extending endpoint that the platform answers
    with 200, 201 or 204, when the log before it is [log]. *)
Definition confirms_session (log : list Request) (request : Request) : bool :=
  is_refresh_request request
  && match upstream log request with
     | Normal response => session_active (status response)
     | Throw _ => false
     end.

(** No request of [issued] confirms the session, the log before the
    first of them being [log]. *)
Fixpoint unconfirmed (log issued : list Request) : Prop :=
  match issued with
  | [] => True
  | request :: later =>
      confirms_session log request = false
      /\ unconfirmed (log ++ [request]) later
  end.

(** An answer that neither confirms nor denies the session: a transport
    failure, or a status that is none of 200, 201, 204, 401 and 403. *)
Definition ambiguous (answer : Completion Response) : Prop :=
  match answer with
  | Normal response =>
      session_active (status response) = false
      /\ status response <> 401 /\ status response <> 403
  | Throw _ => True
  end.

(** [lastResponse], when there is one, does not have status 401. *)
Definition not_401 (lastResponse : option Response) : Prop :=
  forall response, lastResponse = Some response -> status response <> 401.

(** What a run of the refresher's loop, started when the log is [log] and
    [lastResponse] is [before], comes to.  It does not throw.  If it
    returns success, the request it issued last is the only one that may
    have confirmed the session; otherwise no request did.  If it runs out
    of endpoints, [lastResponse] has status 401 only if it had before. *)
Definition loop_outcome (robloxCookie : string) (log : list Request)
    (before : option Response) (run : Completion LoopExit * World) : Prop :=
  exists exit w' issued,
    run = (Normal exit, w')
    /\ requests w' = log ++ issued
    /\ match exit with
       | Returned outcome =>
           (outcome = refresh_success robloxCookie
            /\ exists earlier request,
                 issued = earlier ++ [request] /\ unconfirmed log earlier)
           \/ (outcome = refresh_failure "Cookie is invalid or expired"
               /\ unconfirmed log issued)
       | Exhausted lastResponse =>
           unconfirmed log issued /\ (not_401 before -> not_401 lastResponse)
       end.

(** The statement that the acquirer stops at the first answer that
    carries the [x-csrf-token] header, whatever the header's value: if
    probe [k] (from 0) of a run started in [w] is the first whose answer
    has the header, with value [tok], the run issues the first [k + 1]
    probes, stores [tok] and returns it, and a lookup that follows at
    once returns it too. *)
Definition stops_at_first_header
    (robloxCookie : string) (w : World) (k : nat) (tok : string) : Prop :=
  probe_header robloxCookie (requests w) csrf_endpoints k = Some tok ->
  (forall i, (i < k)%nat ->
     probe_header robloxCookie (requests w) csrf_endpoints i = None) ->
  exists w',
    getCSRFToken robloxCookie w = (Normal (Some tok), w')
    /\ requests w' = requests w ++ probes robloxCookie csrf_endpoints (S k)
    /\ length (requests w') = (length (requests w) + S k)%nat
    /\ csrfTokens w' !! robloxCookie
       = Some {| token := tok; timestamp := clock (clock_reads w) |}
    /\ (clock (clock_reads w') - clock (clock_reads w) < 5 * 60 * 1000 ->
        fst (getStoredCSRFToken robloxCookie w') = Normal (Some tok)).

(** ** Scenarios

    Concrete platforms, clocks and states on which the theorems are
    exercised. *)

(** The state of a process that has just started. *)
Definition new_world : World :=
  {| csrfTokens := ∅; requests := []; clock_reads := 0 |}.

(** A state in which the token T1 was stored for session S1 at time 0. *)
Definition cached_world : World :=
  {| csrfTokens := {[ "S1" := {| token := "T1"; timestamp := 0 |} ]};
     requests := [];
     clock_reads := 0 |}.

(** A clock that starts one second after time 0 and advances one second
    between two readings. *)
Definition seconds_clock (n : nat) : Z := 1000 * (1 + Z.of_nat n).

(** The same clock five minutes later. *)
Definition late_clock (n : nat) : Z := 5 * 60 * 1000 + seconds_clock n.

(** A response with the given status, [x-csrf-token] header and body
    text, whose body is not JSON. *)
Definition plain_response (code : Z) (header : option string) (content : string)
    : Response :=
  {| status := code; x_csrf_token := header; www_authenticate := None;
     text := Normal content; json := Throw "Unexpected end of JSON input" |}.

(** A platform that answers the n-th request of a run with the n-th
    element of [answers], and with 500 after that. *)
Definition scripted (answers : list (Completion Response))
    (log : list Request) (request : Request) : Completion Response :=
  nth (length log) answers (Normal (plain_response 500 None "")).

(** The scenario of the specification: the first probe fails in
    transport, the second is answered with the header [x-csrf-token: T1]. *)
Definition second_probe_leaks : list (Completion Response) :=
  [ Throw "getaddrinfo ENOTFOUND auth.roblox.com";
    Normal (plain_response 200 (Some "T1") "") ].

(** The first probe is answered with an [x-csrf-token] header whose value
    is empty; no other probe has the header. *)
Definition empty_header_first : list (Completion Response) :=
  [ Normal (plain_response 200 (Some "") "") ].

(** The platform hands out tokens and rejects each of them: probe,
    identity request, probe, retry. *)
Definition keeps_rejecting : list (Completion Response) :=
  [ Normal (plain_response 403 (Some "T1") "");
    Normal (plain_response 403 None "Token Validation Failed");
    Normal (plain_response 403 (Some "T2") "");
    Normal (plain_response 403 None "Token Validation Failed") ].

(** The platform hands out a token and answers the identity request 401. *)
Definition session_expired : list (Completion Response) :=
  [ Normal (plain_response 403 (Some "T1") "");
    Normal (plain_response 401 None "") ].


(** Every request is answered 403 without a rejection marker. *)
Definition always_forbidden : list (Completion Response) :=
  replicate 16 (Normal (plain_response 403 None "Forbidden")).

(** A 200 response whose body is the identity of user 7. *)
Definition identity_response : Response :=
  {| status := 200; x_csrf_token := None; www_authenticate := None;
     text := Throw "body used already";
     json := Normal (JObj [ ("id", JNum "7"); ("name", JStr "bob");
                            ("displayName", JStr "Bob") ]) |}.

(** The platform rejects the first token and accepts the second: probe,
    identity request, probe, retry; then a second validation. *)
Definition rejects_once : list (Completion Response) :=
  [ Normal (plain_response 403 (Some "T1") "");
    Normal (plain_response 403 None "Token Validation Failed");
    Normal (plain_response 403 (Some "T2") "");
    Normal identity_response;
    Normal identity_response ].

(** The first endpoint of the refresher answers 500, the second 200. *)
Definition second_endpoint_confirms : list (Completion Response) :=
  [ Normal (plain_response 500 None "");
    Normal (plain_response 200 None "{}") ].

(** ** Further observations

    The vocabulary of the properties that go beyond the claims of the
    specification. *)

(** The world after one more reading of the clock. *)
Definition ticked (w : World) : World :=
  {| csrfTokens := csrfTokens w;
     requests := requests w;
     clock_reads := S (clock_reads w) |}.

(** The three forms of request the program builds for a session: a probe
    of one of the acquirer's endpoints, an identity request with a
    non-empty token, and a request to one of the refresher's endpoints
    with the current value of [csrfToken], [null] or a non-empty string. *)
Definition session_request (robloxCookie : string) (request : Request) : Prop :=
  (exists endpoint,
     endpoint ∈ csrf_endpoints /\ request = probe_request robloxCookie endpoint)
  \/ (exists csrfToken,
        csrfToken <> "" /\ request = identity_request robloxCookie csrfToken)
  \/ (exists endpoint csrfToken,
        endpoint ∈ refresh_endpoints /\ truthy csrfToken = csrfToken
        /\ request = refresh_request robloxCookie csrfToken endpoint).

(** A relation between states that holds along every elementary effect a
    run for the session can have: reading the clock, issuing one of the
    session's requests, storing a non-empty token for the session, and
    deleting the session's entry. *)
Definition step_closed (robloxCookie : string) (R : World -> World -> Prop) : Prop :=
  (forall w, R w w)
  /\ (forall w1 w2 w3, R w1 w2 -> R w2 w3 -> R w1 w3)
  /\ (forall w, R w (ticked w))
  /\ (forall w request, session_request robloxCookie request -> R w (logged request w))
  /\ (forall w csrfToken now,
        csrfToken <> "" ->
        R w {| csrfTokens :=
                 <[robloxCookie := {| token := csrfToken; timestamp := now |}]>
                   (csrfTokens w);
               requests := requests w;
               clock_reads := clock_reads w |})
  /\ (forall w,
        R w {| csrfTokens := delete robloxCookie (csrfTokens w);
               requests := requests w;
               clock_reads := clock_reads w |}).

(** Every token in the cache is a non-empty string. *)
Definition tokens_nonempty (w : World) : Prop :=
  forall session data, csrfTokens w !! session = Some data -> token data <> "".

(** The last request of [log] is an identity request for the session that
    was answered with a status in 200-299 and a JSON body, and [outcome]
    is the valid outcome built from that body's properties. *)
Definition identity_accepted (robloxCookie : string) (log : list Request)
    (outcome : ValidationOutcome) : Prop :=
  exists before csrfToken response userData id name display,
    log = before ++ [identity_request robloxCookie csrfToken]
    /\ upstream before (identity_request robloxCookie csrfToken) = Normal response
    /\ ok response = true
    /\ json response = Normal userData
    /\ get_property userData "id" = Normal id
    /\ get_property userData "name" = Normal name
    /\ get_property userData "displayName" = Normal display
    /\ outcome = {| valid := true; userId := Some id; username := Some name;
                    displayName := Some display; error := None |}.

(** The last request of [log] went to a session-extending endpoint and
    was answered with a status that satisfies [verdict]. *)
Definition last_answer (log : list Request) (verdict : Z -> bool) : Prop :=
  exists before request response,
    log = before ++ [request]
    /\ is_refresh_request request = true
    /\ upstream before request = Normal response
    /\ verdict (status response) = true.


(** What a run of the refresher's loop, started when the log is [log],
    comes to, in numbers and in grounds: it does not throw, it sends at
    most [budget] requests, the first of which is [first] when one is
    named, and when it returns an outcome from inside the loop, the last
    request of the log is a request to a session-extending endpoint whose
    answer backs that outcome: 200, 201 or 204 for success, 401 for the
    failure "Cookie is invalid or expired". *)
Definition loop_account (robloxCookie : string) (log : list Request)
    (first : option Request) (budget : nat)
    (run : Completion LoopExit * World) : Prop :=
  exists exit w' issued,
    run = (Normal exit, w')
    /\ requests w' = log ++ issued
    /\ (length issued <= budget)%nat
    /\ match first with
       | Some request => exists later, issued = request :: later
       | None => True
       end
    /\ match exit with
       | Returned outcome =>
           (outcome = refresh_success robloxCookie
            /\ last_answer (requests w') session_active)
           \/ (outcome = refresh_failure "Cookie is invalid or expired"
               /\ last_answer (requests w') (fun code => code =? 401))
       | Exhausted _ => True
       end.


(** The platform hands out a token and answers the identity request 403
    without a rejection marker. *)
Definition session_forbidden : list (Completion Response) :=
  [ Normal (plain_response 403 (Some "T1") "");
    Normal (plain_response 403 None "Forbidden") ].

(** The platform hands out a token and accepts it. *)
Definition session_accepted : list (Completion Response) :=
  [ Normal (plain_response 403 (Some "T1") "");
    Normal identity_response ].

(** The first request is rejected for its token; nothing after it offers
    a token or confirms anything. *)
Definition rejects_and_withholds : list (Completion Response) :=
  [ Normal (plain_response 403 None "Token Validation Failed") ].

(** A state in which a second session has a cached token too. *)
Definition two_sessions : World :=
  {| csrfTokens := {[ "S1" := {| token := "T1"; timestamp := 0 |};
                      "S2" := {| token := "T9"; timestamp := 0 |} ]};
     requests := [];
     clock_reads := 0 |}.


(** *** What an exhausted run of the refresher goes by *)

(** Whether a request to [address] is among [before]. *)
Definition tried (before : list Request) (address : string) : bool :=
  existsb (fun earlier => String.eqb (url earlier) address) before.

(** The answers the run got to its first attempts, in order: an element
    of [issued] counts when it is a request to a session-extending
    endpoint whose address the run has not tried before, and when the
    platform answered it.  [log] is the log when the run starts and
    [before] are the requests of the run that precede [issued].  A second
    request to an address is the retry with the refetched token. *)
Fixpoint first_attempt_answers (log before issued : list Request) : list Response :=
  match issued with
  | [] => []
  | request :: later =>
      (if is_refresh_request request && negb (tried before (url request))
       then match upstream (log ++ before) request with
            | Normal response => [response]
            | Throw _ => []
            end
       else [])
      ++ first_attempt_answers log (before ++ [request]) later
  end.

(** The answers the run got to all its requests to the session-extending
    endpoints, first attempts and retries alike. *)
Fixpoint refresh_answers (log issued : list Request) : list Response :=
  match issued with
  | [] => []
  | request :: later =>
      (if is_refresh_request request
       then match upstream log request with
            | Normal response => [response]
            | Throw _ => []
            end
       else [])
      ++ refresh_answers (log ++ [request]) later
  end.

(** A run that went through the whole list of endpoints without any
    attempt succeeding, in terms of its requests [issued] and the answers
    to them: it reached the endpoints, no answer confirmed the session,
    and no first attempt was answered 401, which ends the run at once. *)
Definition exhausted_run (log issued : list Request) : Prop :=
  Exists (fun request => is_refresh_request request = true) issued
  /\ unconfirmed log issued
  /\ Forall (fun response => status response <> 401)
       (first_attempt_answers log [] issued).

(** The rule of the specification for such a run, applied to the response
    it goes by: authentication errors for a status of 401 or 403, the
    optimistic outcome otherwise. *)
Definition exhausted_outcome_rule (robloxCookie : string)
    (decisive : option Response) : RefreshOutcome :=
  match decisive with
  | Some response =>
      if decide (status response = 401 \/ status response = 403)
      then {| refreshed := false; cookie := None; warning := None;
              refresh_error :=
                Some "Cookie could not be refreshed due to authentication errors" |}
      else {| refreshed := true; cookie := Some robloxCookie;
              warning := Some "Refresh confirmation failed but cookie appears valid";
              refresh_error := None |}
  | None =>
      {| refreshed := true; cookie := Some robloxCookie;
         warning := Some "Refresh confirmation failed but cookie appears valid";
         refresh_error := None |}
  end.

(** The rule read with the last response the run observed: the outcome of
    every exhausted run of the refresher started in [w] is the one the
    rule gives for the last answer to a request to a session-extending
    endpoint, retries included. *)
Definition decided_by_last_answer (robloxCookie : string) (w : World) : Prop :=
  forall outcome w' issued,
    refreshCookieWithRoblox robloxCookie w = (Normal outcome, w') ->
    requests w' = requests w ++ issued ->
    exhausted_run (requests w) issued ->
    outcome = exhausted_outcome_rule robloxCookie
                (last (refresh_answers (requests w) issued)).

(** What a run of the refresher's loop comes to, in terms of the answers
    to first attempts.  The run starts when the log is [log ++ before],
    [before] being the requests of the refresher so far, and
    [lastResponse] has the value [recorded].  It does not throw.  If it
    returns success, the request it issued last confirmed the session.
    If it returns the failure for an expired session, a first attempt was
    answered 401.  If it runs out of endpoints, no first attempt was
    answered 401 and [lastResponse] is the last answer to a first
    attempt, or [recorded] when no first attempt was answered. *)
Definition loop_recorded (robloxCookie : string) (log before : list Request)
    (recorded : option Response) (run : Completion LoopExit * World) : Prop :=
  exists exit w' issued,
    run = (Normal exit, w')
    /\ requests w' = log ++ before ++ issued
    /\ match exit with
       | Returned outcome =>
           (outcome = refresh_success robloxCookie
            /\ exists earlier request,
                 issued = earlier ++ [request]
                 /\ confirms_session (log ++ before ++ earlier) request = true)
           \/ (outcome = refresh_failure "Cookie is invalid or expired"
               /\ Exists (fun response => status response = 401)
                    (first_attempt_answers log before issued))
       | Exhausted lastResponse =>
           lastResponse
           = match last (first_attempt_answers log before issued) with
             | Some response => Some response
             | None => recorded
             end
           /\ Forall (fun response => status response <> 401)
                (first_attempt_answers log before issued)
       end.

(** The first two endpoints answer 500, the third rejects the token; the
    first probe of the acquirer hands out a new token, and the retry with
    it is answered 500. *)
Definition retry_unanswered : list (Completion Response) :=
  [ Normal (plain_response 500 None "");
    Normal (plain_response 500 None "");
    Normal (plain_response 403 None "Token Validation Failed");
    Normal (plain_response 403 (Some "T2") "");
    Normal (plain_response 500 None "") ].

(** The platform hands out a token and answers the identity request with
    a user whose name is an object with a [toString] property. *)
Definition unprintable_name : list (Completion Response) :=
  [ Normal (plain_response 403 (Some "T1") "");
    Normal {| status := 200; x_csrf_token := None; www_authenticate := None;
              text := Throw "body used already";
              json := Normal (JObj [ ("id", JNum "7");
                                     ("name", JObj [ ("toString", JNum "1") ]) ]) |} ].


(** ** Properties *)

Lemma fetch_eq request w :
  fetch request w = (upstream (requests w) request, logged request w).
Proof. reflexivity. Qed.

(** *** Token cache *)

Lemma getStoredCSRFToken_eq c w :
  getStoredCSRFToken c w =
    match csrfTokens w !! c with
    | None => (Normal None, w)
    | Some data =>
        if clock (clock_reads w) - timestamp data <? 5 * 60 * 1000
        then (Normal (Some (token data)),
              {| csrfTokens := csrfTokens w; requests := requests w;
                 clock_reads := S (clock_reads w) |})
        else (Normal None,
              {| csrfTokens := delete c (csrfTokens w); requests := requests w;
                 clock_reads := S (clock_reads w) |})
    end.
Proof.
  unfold getStoredCSRFToken, bind, csrfTokens_get, Date_now. cbn.
  destruct (csrfTokens w !! c) as [data|]; [|reflexivity].
  cbn. destruct (_ <? _); reflexivity.
Qed.

Lemma storeCSRFToken_eq c tok w :
  storeCSRFToken c tok w = (Normal tt, cached c tok (clock (clock_reads w)) w).
Proof. reflexivity. Qed.

(** *** Token acquirer *)

(** One iteration of the loop: the probe is logged; a truthy header ends
    the loop with the token stored, anything else goes on with the rest. *)
Lemma getCSRFToken_loop_cons c e rest w :
  getCSRFToken_loop c (e :: rest) w =
    match offered_token (upstream (requests w) (probe_request c e)) with
    | Some tok =>
        (Normal (Some tok),
         cached c tok (clock (clock_reads w)) (logged (probe_request c e) w))
    | None => getCSRFToken_loop c rest (logged (probe_request c e) w)
    end.
Proof.
  cbn [getCSRFToken_loop]. unfold bind at 1, try_catch, bind at 1.
  rewrite fetch_eq. unfold offered_token.
  destruct (upstream (requests w) (probe_request c e)) as [response|message].
  - destruct (truthy (x_csrf_token response)) as [tok|].
    + reflexivity.
    + destruct (status response =? 403); [|reflexivity].
      destruct (truthy (www_authenticate response)) as [h|]; [|reflexivity].
      destruct (includes h "X-CSRF-TOKEN"); reflexivity.
  - reflexivity.
Qed.

Lemma probes_S c e rest n :
  probes c (e :: rest) (S n) = probe_request c e :: probes c rest n.
Proof. reflexivity. Qed.

Lemma probe_offer_0 c log e rest :
  probe_offer c log (e :: rest) 0 = offered_token (upstream log (probe_request c e)).
Proof.
  unfold probe_offer, probe_answer. cbn.
  unfold probes. cbn. by rewrite app_nil_r.
Qed.

Lemma probe_offer_S c log e rest i :
  probe_offer c log (e :: rest) (S i) = probe_offer c (log ++ [probe_request c e]) rest i.
Proof.
  unfold probe_offer, probe_answer. cbn.
  destruct (rest !! i); [|reflexivity].
  unfold probes. cbn. by rewrite <- app_assoc.
Qed.

(** The loop stops at the first probe that offers a token. *)
Lemma getCSRFToken_loop_first_offer c eps : forall k tok w,
  probe_offer c (requests w) eps k = Some tok ->
  (forall i, (i < k)%nat -> probe_offer c (requests w) eps i = None) ->
  getCSRFToken_loop c eps w =
    (Normal (Some tok),
     {| csrfTokens := <[c := {| token := tok; timestamp := clock (clock_reads w) |}]>
                        (csrfTokens w);
        requests := requests w ++ probes c eps (S k);
        clock_reads := S (clock_reads w) |}).
Proof.
  induction eps as [|e rest IH]; intros k tok w Hk Hbefore.
  - unfold probe_offer, probe_answer in Hk. by destruct k.
  - rewrite getCSRFToken_loop_cons. destruct k as [|k].
    + rewrite probe_offer_0 in Hk. rewrite Hk. reflexivity.
    + pose proof (Hbefore 0%nat ltac:(lia)) as H0. rewrite probe_offer_0 in H0.
      rewrite H0. rewrite probe_offer_S in Hk.
      rewrite (IH k tok (logged (probe_request c e) w)); cbn [requests logged].
      * rewrite probes_S. cbn. by rewrite <- app_assoc.
      * exact Hk.
      * intros i Hi. rewrite <- probe_offer_S. apply Hbefore. lia.
Qed.

(** Without any offer the loop tries every endpoint and returns [null],
    leaving the cache as it was. *)
Lemma getCSRFToken_loop_no_offer c eps : forall w,
  (forall i, probe_offer c (requests w) eps i = None) ->
  getCSRFToken_loop c eps w =
    (Normal None,
     {| csrfTokens := csrfTokens w;
        requests := requests w ++ probes c eps (length eps);
        clock_reads := clock_reads w |}).
Proof.
  induction eps as [|e rest IH]; intros w Hnone.
  - cbn. unfold ret, probes. cbn. rewrite app_nil_r. by destruct w.
  - rewrite getCSRFToken_loop_cons.
    pose proof (Hnone 0%nat) as H0. rewrite probe_offer_0 in H0. rewrite H0.
    rewrite IH; cbn [requests logged csrfTokens clock_reads length].
    + rewrite probes_S. cbn. by rewrite <- app_assoc.
    + intros i. rewrite <- probe_offer_S. apply Hnone.
Qed.

(** Either some probe is the first to offer a token, or none does. *)
Lemma first_offer_or_none (offer : nat -> option string) (n : nat) :
  (exists k tok, (k < n)%nat /\ offer k = Some tok
                 /\ forall i, (i < k)%nat -> offer i = None)
  \/ (forall i, (i < n)%nat -> offer i = None).
Proof.
  induction n as [|n [(k & tok & Hk & Hoffer & Hbefore)|Hnone]].
  - right. intros i Hi. lia.
  - left. exists k, tok. split; [lia|done].
  - destruct (offer n) as [tok|] eqn:Hn.
    + left. exists n, tok. split; [lia|]. split; [done|]. intros i Hi. apply Hnone, Hi.
    + right. intros i Hi. destruct (decide (i = n)) as [->|]; [done|]. apply Hnone. lia.
Qed.

Lemma probe_offer_beyond c log eps i :
  (length eps <= i)%nat -> probe_offer c log eps i = None.
Proof.
  intros Hi. unfold probe_offer, probe_answer.
  by rewrite (lookup_ge_None_2 eps i Hi).
Qed.

(** The two ways a run of the acquirer can go. *)
Lemma getCSRFToken_loop_cases c eps w :
  (exists k tok,
     (k < length eps)%nat
     /\ probe_offer c (requests w) eps k = Some tok
     /\ (forall i, (i < k)%nat -> probe_offer c (requests w) eps i = None)
     /\ getCSRFToken_loop c eps w =
          (Normal (Some tok),
           {| csrfTokens := <[c := {| token := tok; timestamp := clock (clock_reads w) |}]>
                              (csrfTokens w);
              requests := requests w ++ probes c eps (S k);
              clock_reads := S (clock_reads w) |}))
  \/ ((forall i, probe_offer c (requests w) eps i = None)
      /\ getCSRFToken_loop c eps w =
           (Normal None,
            {| csrfTokens := csrfTokens w;
               requests := requests w ++ probes c eps (length eps);
               clock_reads := clock_reads w |})).
Proof.
  destruct (first_offer_or_none (probe_offer c (requests w) eps) (length eps))
    as [(k & tok & Hk & Hoffer & Hbefore)|Hnone].
  - left. exists k, tok. repeat split; try done.
    by apply getCSRFToken_loop_first_offer.
  - assert (forall i, probe_offer c (requests w) eps i = None) as Hall.
    { intros i. destruct (decide (i < length eps)%nat); [by apply Hnone|].
      apply probe_offer_beyond. lia. }
    right. split; [done|]. by apply getCSRFToken_loop_no_offer.
Qed.

Lemma truthy_Some v s : truthy v = Some s -> v = Some s.
Proof.
  destruct v as [s'|]; [|done]. cbn. destruct (String.eqb s' ""); [done|]. by intros [= ->].
Qed.

Lemma truthy_nonempty v s : truthy v = Some s -> s <> "".
Proof.
  destruct v as [s'|]; [|done]. cbn. destruct (String.eqb_spec s' ""); [done|].
  by intros [= <-].
Qed.

Lemma truthy_idem v s : truthy v = Some s -> truthy (Some s) = Some s.
Proof.
  intros H. pose proof (truthy_nonempty _ _ H) as Hne. cbn.
  by destruct (String.eqb_spec s "").
Qed.

(** An offered token is the value of the response header. *)
Lemma probe_offer_header c log eps k tok :
  probe_offer c log eps k = Some tok -> probe_header c log eps k = Some tok.
Proof.
  unfold probe_offer, probe_header.
  destruct (probe_answer c log eps k) as [[response|message]|]; cbn; try done.
  apply truthy_Some.
Qed.


(** *** The log of a run *)

Lemma count_requests_app p l1 l2 :
  count_requests p (l1 ++ l2) = (count_requests p l1 + count_requests p l2)%nat.
Proof. unfold count_requests. by rewrite List.filter_app, length_app. Qed.

Lemma count_requests_none p l :
  Forall (fun r => p r = false) l -> count_requests p l = 0%nat.
Proof.
  unfold count_requests. induction 1 as [|r l Hr _ IH]; [done|].
  cbn. by rewrite Hr.
Qed.

Lemma probes_not_identity c eps n :
  Forall (fun r => is_identity_request r = false) (probes c eps n).
Proof.
  unfold probes. apply Forall_map, Forall_forall. intros e _.
  unfold is_identity_request. cbn. apply andb_false_r.
Qed.

Lemma probes_csrf_not_refresh c n :
  Forall (fun r => is_refresh_request r = false) (probes c csrf_endpoints n).
Proof.
  unfold probes. apply Forall_map.
  apply Forall_take. repeat constructor.
Qed.

Lemma probes_manual c eps n :
  Forall (fun r => redirect r = Some RedirectManual) (probes c eps n).
Proof. unfold probes. apply Forall_map, Forall_forall. by intros e _. Qed.

Lemma identity_requests_probes c eps n : identity_requests (probes c eps n) = 0%nat.
Proof. apply count_requests_none, probes_not_identity. Qed.

(** A run of the acquirer never throws, logs a prefix of its probes, and
    returns [null] or a non-empty token. *)
Lemma getCSRFToken_run c w :
  exists r w' n,
    getCSRFToken c w = (Normal r, w')
    /\ requests w' = requests w ++ probes c csrf_endpoints n
    /\ truthy r = r.
Proof.
  destruct (getCSRFToken_loop_cases c csrf_endpoints w)
    as [(k & tok & Hk & Hoffer & _ & Hrun)|[_ Hrun]].
  - eexists _, _, (S k). split; [exact Hrun|]. split; [done|].
    unfold probe_offer in Hoffer.
    destruct (probe_answer c (requests w) csrf_endpoints k) as [[response|m]|];
      cbn in Hoffer; try done.
    by apply truthy_idem in Hoffer.
  - eexists _, _, _. split; [exact Hrun|]. by split.
Qed.

Lemma getStoredCSRFToken_run c w :
  exists r w',
    getStoredCSRFToken c w = (Normal r, w') /\ requests w' = requests w.
Proof.
  rewrite getStoredCSRFToken_eq. destruct (csrfTokens w !! c) as [data|].
  - destruct (_ <? _); by eexists _, _.
  - by eexists _, _.
Qed.

Lemma stored_or_fetched_run c w :
  exists r w' n,
    stored_or_fetched c w = (Normal r, w')
    /\ requests w' = requests w ++ probes c csrf_endpoints n
    /\ truthy r = r.
Proof.
  unfold stored_or_fetched, bind.
  destruct (getStoredCSRFToken_run c w) as (r0 & w0 & -> & Hlog).
  destruct (truthy r0) as [tok|] eqn:Htruthy.
  - exists (Some tok), w0, 0%nat. split; [done|]. split.
    + unfold probes. cbn. by rewrite app_nil_r.
    + by apply truthy_idem in Htruthy.
  - destruct (getCSRFToken_run c w0) as (r & w' & n & -> & Hlog' & Hr).
    exists r, w', n. split; [done|]. by rewrite Hlog', Hlog.
Qed.

Lemma identity_of_run userData w :
  exists r, identity_of userData w = (r, w).
Proof.
  unfold identity_of, bind, await, ret.
  destruct (get_property userData "id"); [|by eexists].
  destruct (get_property userData "name"); [|by eexists].
  destruct (get_property userData "displayName"); by eexists.
Qed.

(** What the validator logs after its first identity request: the probes
    of at most one run of the acquirer, then at most one retry. *)
Lemma validate_response_run c response w :
  exists r w' n retry,
    validate_response c response w = (r, w')
    /\ requests w' = requests w ++ probes c csrf_endpoints n ++ retry
    /\ at_most_one_identity c retry.
Proof.
  assert (forall r : Completion ValidationOutcome, exists r' w' n retry,
            (r, w) = (r', w')
            /\ requests w' = requests w ++ probes c csrf_endpoints n ++ retry
            /\ at_most_one_identity c retry)
    as Hquiet.
  { intros r. exists r, w, 0%nat, []. split; [done|]. split; [|by left].
    unfold probes. cbn. by rewrite app_nil_r. }
  unfold validate_response.
  destruct (status response =? 401); [apply Hquiet|].
  destruct (status response =? 403).
  - unfold bind at 1, await at 1.
    destruct (text response) as [responseText|message]; [|apply Hquiet].
    destruct (csrf_rejection responseText); [|apply Hquiet].
    unfold bind at 1.
    destruct (getCSRFToken_run c w) as (r & w1 & n & -> & Hlog & Hr).
    destruct (truthy r) as [tok|].
    + unfold bind at 1. rewrite fetch_eq.
      assert (forall r' : Completion ValidationOutcome, exists r'' w' n' retry,
                (r', logged (identity_request c tok) w1) = (r'', w')
                /\ requests w' = requests w ++ probes c csrf_endpoints n' ++ retry
                /\ at_most_one_identity c retry)
        as Hretried.
      { intros r'. eexists r', _, n, [identity_request c tok]. split; [done|].
        cbn. rewrite Hlog. split; [by rewrite app_assoc|]. right. by eexists. }
      destruct (upstream (requests w1) (identity_request c tok))
        as [retryResponse|message]; [|apply Hretried].
      destruct (negb (ok retryResponse)); [apply Hretried|].
      unfold bind at 1, await at 1.
      destruct (json retryResponse) as [userData|message]; [|apply Hretried].
      destruct (identity_of_run userData (logged (identity_request c tok) w1))
        as (r' & ->). apply Hretried.
    + exists (Normal (invalid "Could not obtain valid CSRF token")), w1, n, [].
      split; [done|]. rewrite app_nil_r. split; [done|by left].
  - destruct (negb (ok response)); [apply Hquiet|].
    unfold bind at 1, await at 1.
    destruct (json response) as [userData|message]; [|apply Hquiet].
    unfold bind at 1, await at 1.
    destruct (get_property userData "name") as [name|message]; [|apply Hquiet].
    unfold bind at 1, await at 1.
    destruct (template_literal name); [|apply Hquiet].
    destruct (identity_of_run userData w) as (r' & ->). apply Hquiet.
Qed.

(** *** Claims about the cache and the acquirer *)

(** C2.  A lookup returns a token exactly when the map holds an entry for
    the session whose timestamp is strictly less than five minutes before
    the clock reading of the lookup, and then it returns that entry's
    token and leaves the map alone.  An entry five minutes old or older is
    deleted and the lookup returns [null].  Nothing else changes: no
    request is issued, and every other entry of the map stays as it was
    (reading the clock is counted in [clock_reads], which is how the
    model tells one reading from the next). *)
Theorem lookup_fresh_or_evict c w :
  let now := clock (clock_reads w) in
  let result := getStoredCSRFToken c w in
  (forall tok,
     fst result = Normal (Some tok) <->
     exists data, csrfTokens w !! c = Some data /\ token data = tok
                  /\ now - timestamp data < 5 * 60 * 1000)
  /\ (forall data,
        csrfTokens w !! c = Some data -> now - timestamp data < 5 * 60 * 1000 ->
        csrfTokens (snd result) = csrfTokens w)
  /\ (forall data,
        csrfTokens w !! c = Some data -> 5 * 60 * 1000 <= now - timestamp data ->
        fst result = Normal None
        /\ csrfTokens (snd result) = delete c (csrfTokens w))
  /\ (csrfTokens w !! c = None -> result = (Normal None, w))
  /\ requests (snd result) = requests w
  /\ (forall other, other <> c ->
        csrfTokens (snd result) !! other = csrfTokens w !! other).
Proof.
  intros now result. subst result. rewrite getStoredCSRFToken_eq. fold now.
  destruct (csrfTokens w !! c) as [data|] eqn:Hdata.
  - destruct (now - timestamp data <? 5 * 60 * 1000) eqn:Hfresh.
    + apply Z.ltb_lt in Hfresh. cbn. split_and!.
      * intros tok. split.
        -- intros [= <-]. by exists data.
        -- intros (data' & [= <-] & <- & _). reflexivity.
      * done.
      * intros data' [= <-] Hold. lia.
      * done.
      * done.
      * done.
    + apply Z.ltb_ge in Hfresh. cbn. split_and!.
      * intros tok. split; [done|].
        intros (data' & [= <-] & _ & Hlt). lia.
      * intros data' [= <-] Hlt. lia.
      * done.
      * done.
      * done.
      * intros other Hother. by rewrite lookup_delete_ne.
  - cbn. split_and!; try done.
    intros tok. split; [done|]. by intros (data' & [=] & _).
Qed.

(** C3, as the code has it.  If probe [k] (counted from 0) is the first
    whose answer carries a non-empty [x-csrf-token] header, the earlier
    ones having thrown or answered without the header or with an empty
    one, then the acquirer issues exactly the first [k + 1] probes, stores
    the header's value for the session with the time of the store, and
    returns it; a lookup that follows at once, that is, whose clock
    reading is less than five minutes after that of the store, returns
    the same token. *)
Theorem acquire_first_offer c w k tok :
  probe_offer c (requests w) csrf_endpoints k = Some tok ->
  (forall i, (i < k)%nat -> probe_offer c (requests w) csrf_endpoints i = None) ->
  exists w',
    getCSRFToken c w = (Normal (Some tok), w')
    /\ requests w' = requests w ++ probes c csrf_endpoints (S k)
    /\ length (requests w') = (length (requests w) + S k)%nat
    /\ csrfTokens w' !! c
       = Some {| token := tok; timestamp := clock (clock_reads w) |}
    /\ (clock (clock_reads w') - clock (clock_reads w) < 5 * 60 * 1000 ->
        fst (getStoredCSRFToken c w') = Normal (Some tok)).
Proof.
  intros Hoffer Hbefore. eexists. split.
  { unfold getCSRFToken. by apply getCSRFToken_loop_first_offer. }
  cbn [requests csrfTokens clock_reads]. split; [done|].
  assert (k < length csrf_endpoints)%nat as Hk.
  { destruct (decide (k < length csrf_endpoints)%nat) as [|Hge]; [done|].
    rewrite probe_offer_beyond in Hoffer by lia. done. }
  split.
  { rewrite length_app. unfold probes. rewrite length_map, length_take. lia. }
  split; [by rewrite lookup_insert_eq|].
  intros Hsoon. rewrite getStoredCSRFToken_eq. cbn [csrfTokens clock_reads].
  rewrite lookup_insert_eq. cbn [timestamp token].
  apply Z.ltb_lt in Hsoon. by rewrite Hsoon.
Qed.

(** C9.  An answer without the [x-csrf-token] header, whatever its status
    and its other headers, makes the loop of the acquirer go on with the
    remaining endpoints after logging the probe.  A run of the acquirer
    ends either with a token, which is then the header value of the last
    probe it issued, or with [null] after every endpoint was probed. *)
Theorem acquire_continues_without_header c w :
  (forall e rest response,
     upstream (requests w) (probe_request c e) = Normal response ->
     x_csrf_token response = None ->
     getCSRFToken_loop c (e :: rest) w
     = getCSRFToken_loop c rest (logged (probe_request c e) w))
  /\ ((exists k tok w',
         getCSRFToken c w = (Normal (Some tok), w')
         /\ probe_header c (requests w) csrf_endpoints k = Some tok
         /\ requests w' = requests w ++ probes c csrf_endpoints (S k))
      \/ (exists w',
            getCSRFToken c w = (Normal None, w')
            /\ requests w' = requests w ++ probes c csrf_endpoints (length csrf_endpoints))).
Proof.
  split.
  - intros e rest response Hanswer Hheader.
    rewrite getCSRFToken_loop_cons, Hanswer. cbn. by rewrite Hheader.
  - destruct (getCSRFToken_loop_cases c csrf_endpoints w)
      as [(k & tok & Hk & Hoffer & _ & Hrun)|[_ Hrun]].
    + left. eexists k, tok, _. split; [exact Hrun|]. split; [|done].
      by apply probe_offer_header.
    + right. eexists. split; [exact Hrun|done].
Qed.

Lemma validateCookieWithRoblox_eq c w :
  validateCookieWithRoblox c w =
    match validate_try c w with
    | (Normal outcome, w') => (Normal outcome, w')
    | (Throw message, w') => (Normal (invalid message), w')
    end.
Proof. reflexivity. Qed.

Lemma refreshCookieWithRoblox_eq c w :
  refreshCookieWithRoblox c w =
    match refresh_try c w with
    | (Normal outcome, w') => (Normal outcome, w')
    | (Throw message, w') => (Normal (refresh_failure message), w')
    end.
Proof. reflexivity. Qed.

(** The [try] block of the validator once the token is resolved. *)
Lemma validate_try_resolved c w csrfToken w1 :
  stored_or_fetched c w = (Normal (Some csrfToken), w1) ->
  validate_try c w =
    match upstream (requests w1) (identity_request c csrfToken) with
    | Normal response =>
        validate_response c response (logged (identity_request c csrfToken) w1)
    | Throw message => (Throw message, logged (identity_request c csrfToken) w1)
    end.
Proof.
  intros Hresolved. unfold validate_try, bind at 1. rewrite Hresolved.
  destruct (stored_or_fetched_run c w) as (r & w' & n & Hrun & _ & Htruthy).
  rewrite Hresolved in Hrun. injection Hrun as <- <-. rewrite Htruthy.
  unfold bind. by rewrite fetch_eq.
Qed.

Lemma validate_try_unresolved c w w1 :
  stored_or_fetched c w = (Normal None, w1) ->
  validate_try c w
  = (Normal (invalid "Could not obtain CSRF token for validation"), w1).
Proof. intros Hresolved. unfold validate_try, bind at 1. by rewrite Hresolved. Qed.

(** The log of a whole validation: probes, at most one identity request,
    probes again, at most one retry. *)
Lemma validate_try_run c w :
  exists r w' n first m retry,
    validate_try c w = (r, w')
    /\ requests w'
       = requests w ++ probes c csrf_endpoints n ++ first
                    ++ probes c csrf_endpoints m ++ retry
    /\ at_most_one_identity c first
    /\ at_most_one_identity c retry.
Proof.
  destruct (stored_or_fetched_run c w) as (r0 & w1 & n & Hresolved & Hlog & _).
  destruct r0 as [csrfToken|].
  - rewrite (validate_try_resolved _ _ _ _ Hresolved).
    destruct (upstream (requests w1) (identity_request c csrfToken))
      as [response|message].
    + destruct (validate_response_run c response
                  (logged (identity_request c csrfToken) w1))
        as (r & w' & m & retry & -> & Hlog' & Hretry).
      exists r, w', n, [identity_request c csrfToken], m, retry.
      split; [done|]. split; [|split; [right; by eexists|done]].
      rewrite Hlog'. cbn [requests logged]. rewrite Hlog.
      by rewrite <- !app_assoc.
    + eexists _, _, n, [identity_request c csrfToken], 0%nat, [].
      split; [done|]. split; [|split; [right; by eexists|by left]].
      cbn [requests logged]. rewrite Hlog. unfold probes at 2. cbn.
      by rewrite <- !app_assoc.
  - rewrite (validate_try_unresolved _ _ _ Hresolved).
    eexists _, _, n, [], 0%nat, []. split; [done|].
    split; [|split; by left]. rewrite Hlog. unfold probes at 2. cbn.
    by rewrite !app_nil_r.
Qed.

Lemma identity_requests_at_most_one c l :
  at_most_one_identity c l -> (identity_requests l <= 1)%nat.
Proof. intros [->|[tok ->]]; cbn; lia. Qed.

Lemma identity_not_refresh c l :
  at_most_one_identity c l ->
  Forall (fun r => is_refresh_request r = false) l.
Proof. intros [->|[tok ->]]; by repeat constructor. Qed.

Lemma validateCookieWithRoblox_run c w :
  exists outcome w' issued,
    validateCookieWithRoblox c w = (Normal outcome, w')
    /\ requests w' = requests w ++ issued
    /\ (identity_requests issued <= 2)%nat
    /\ Forall (fun r => is_refresh_request r = false) issued.
Proof.
  destruct (validate_try_run c w)
    as (r & w' & n & first & m & retry & Hrun & Hlog & Hfirst & Hretry).
  assert (exists outcome, validateCookieWithRoblox c w = (Normal outcome, w'))
    as [outcome Houtcome].
  { rewrite validateCookieWithRoblox_eq, Hrun. destruct r; by eexists. }
  eexists outcome, w', _. split; [done|]. split; [exact Hlog|]. split.
  - unfold identity_requests. rewrite !count_requests_app.
    fold (identity_requests (probes c csrf_endpoints n)).
    fold (identity_requests (probes c csrf_endpoints m)).
    rewrite !identity_requests_probes.
    pose proof (identity_requests_at_most_one c first Hfirst).
    pose proof (identity_requests_at_most_one c retry Hretry).
    unfold identity_requests in *. lia.
  - repeat apply Forall_app_2;
      first [apply probes_csrf_not_refresh | by apply (identity_not_refresh c)].
Qed.

(** *** Claims about the validator *)

(** C1.  Whatever the platform does, one validation returns normally and
    its requests are, in this order: the probes of at most one run of the
    acquirer, at most one identity request, the probes of at most one
    further run of the acquirer, and at most one more identity request,
    the retry; so at most two identity requests.  When the first identity
    request is answered 403 with a body that signals an anti-forgery
    rejection, the acquirer is run once more.  If it obtains a new token,
    the identity request is issued again with that token, and this retry
    is the last thing the validation does, two identity requests in all;
    when the retry is answered with a status outside 200-299, a 403 with
    the rejection marker included, the outcome has [valid = false].  If
    it obtains none, the validation ends there with [valid = false]. *)
Theorem validate_retries_once c w :
  (exists outcome w' n first m retry,
     validateCookieWithRoblox c w = (Normal outcome, w')
     /\ requests w'
        = requests w ++ probes c csrf_endpoints n ++ first
                     ++ probes c csrf_endpoints m ++ retry
     /\ at_most_one_identity c first
     /\ at_most_one_identity c retry
     /\ (identity_requests (probes c csrf_endpoints n ++ first
                            ++ probes c csrf_endpoints m ++ retry) <= 2)%nat)
  /\ (forall csrfToken w1 response responseText refetched w2,
        stored_or_fetched c w = (Normal (Some csrfToken), w1) ->
        upstream (requests w1) (identity_request c csrfToken) = Normal response ->
        status response = 403 ->
        text response = Normal responseText ->
        csrf_rejection responseText = true ->
        getCSRFToken c (logged (identity_request c csrfToken) w1)
        = (Normal refetched, w2) ->
        match refetched with
        | Some newToken =>
            exists outcome issued,
              validateCookieWithRoblox c w
              = (Normal outcome, logged (identity_request c newToken) w2)
              /\ requests (logged (identity_request c newToken) w2)
                 = requests w ++ issued
              /\ identity_requests issued = 2%nat
              /\ (forall retryResponse,
                    upstream (requests w2) (identity_request c newToken)
                    = Normal retryResponse ->
                    ok retryResponse = false ->
                    valid outcome = false)
        | None =>
            validateCookieWithRoblox c w
            = (Normal (invalid "Could not obtain valid CSRF token"), w2)
        end).
Proof.
  split.
  { destruct (validate_try_run c w)
      as (r & w' & n & first & m & retry & Hrun & Hlog & Hfirst & Hretry).
    assert (exists outcome, validateCookieWithRoblox c w = (Normal outcome, w'))
      as [outcome Houtcome].
    { rewrite validateCookieWithRoblox_eq, Hrun. destruct r; by eexists. }
    exists outcome, w', n, first, m, retry. split_and!; try done.
    unfold identity_requests. rewrite !count_requests_app.
    fold (identity_requests (probes c csrf_endpoints n)).
    fold (identity_requests (probes c csrf_endpoints m)).
    rewrite !identity_requests_probes.
    pose proof (identity_requests_at_most_one c first Hfirst).
    pose proof (identity_requests_at_most_one c retry Hretry).
    unfold identity_requests in *. lia. }
  intros csrfToken w1 response responseText refetched w2
    Hresolved Hanswer Hstatus Htext Hmarker Hrefetch.
  destruct refetched as [newToken|].
  2:{ rewrite validateCookieWithRoblox_eq, (validate_try_resolved _ _ _ _ Hresolved).
      rewrite Hanswer. unfold validate_response. rewrite Hstatus. cbn [Z.eqb Pos.eqb].
      unfold bind at 1, await at 1. rewrite Htext, Hmarker.
      unfold bind at 1. by rewrite Hrefetch. }
  destruct (stored_or_fetched_run c w) as (r0 & w1' & n & Hrun0 & Hlog1 & _).
  rewrite Hresolved in Hrun0. injection Hrun0 as <- <-.
  destruct (getCSRFToken_run c (logged (identity_request c csrfToken) w1))
    as (r1 & w2' & m & Hrun1 & Hlog2 & Htruthy).
  rewrite Hrefetch in Hrun1. injection Hrun1 as <- <-.
  assert (exists r,
            validate_try c w = (r, logged (identity_request c newToken) w2)
            /\ (forall retryResponse,
                  upstream (requests w2) (identity_request c newToken)
                  = Normal retryResponse ->
                  ok retryResponse = false ->
                  exists message, r = Normal (invalid message)))
    as (r & Hrun & Hfailed).
  { rewrite (validate_try_resolved _ _ _ _ Hresolved), Hanswer.
    unfold validate_response. rewrite Hstatus. cbn [Z.eqb Pos.eqb].
    unfold bind at 1, await at 1. rewrite Htext, Hmarker.
    unfold bind at 1. rewrite Hrefetch, Htruthy.
    unfold bind at 1. rewrite fetch_eq.
    destruct (upstream (requests w2) (identity_request c newToken))
      as [retryResponse|message].
    - destruct (ok retryResponse) eqn:Hok; cbn [negb].
      + unfold bind at 1, await at 1.
        destruct (json retryResponse) as [userData|message].
        * destruct (identity_of_run userData (logged (identity_request c newToken) w2))
            as (r' & ->).
          eexists. split; [done|]. intros ? [= <-]. congruence.
        * eexists. split; [done|]. intros ? [= <-]. congruence.
      + eexists. split; [done|]. intros ? _ _. by eexists.
    - eexists. split; [done|]. intros ? [=]. }
  assert (exists outcome,
            validateCookieWithRoblox c w
            = (Normal outcome, logged (identity_request c newToken) w2)
            /\ (forall message, r = Normal (invalid message) -> valid outcome = false))
    as (outcome & Houtcome & Hinvalid).
  { rewrite validateCookieWithRoblox_eq, Hrun.
    destruct r as [outcome|message]; eexists; (split; [done|]).
    - by intros message [= ->].
    - done. }
  eexists outcome, _. split; [exact Houtcome|]. split.
  { cbn [requests logged]. rewrite Hlog2. cbn [requests logged]. rewrite Hlog1.
    rewrite <- !app_assoc. reflexivity. }
  split.
  { unfold identity_requests. rewrite !count_requests_app.
    fold (identity_requests (probes c csrf_endpoints n)).
    fold (identity_requests (probes c csrf_endpoints m)).
    by rewrite !identity_requests_probes. }
  intros retryResponse Hretry Hok.
  destruct (Hfailed retryResponse Hretry Hok) as [message ->].
  by apply (Hinvalid message).
Qed.

(** C4.  When the identity request is answered 401, whatever else the
    response holds, the validation returns [valid = false] with the error
    "Cookie is invalid or expired", and the state it leaves is the one
    right after that request: nothing was issued after it, neither a
    retry nor a probe of the acquirer, and the cache is as the token
    resolution left it. *)
Theorem validate_401_is_terminal c w csrfToken w1 response :
  stored_or_fetched c w = (Normal (Some csrfToken), w1) ->
  upstream (requests w1) (identity_request c csrfToken) = Normal response ->
  status response = 401 ->
  validateCookieWithRoblox c w
  = (Normal (invalid "Cookie is invalid or expired"),
     {| csrfTokens := csrfTokens w1;
        requests := requests w1 ++ [identity_request c csrfToken];
        clock_reads := clock_reads w1 |}).
Proof.
  intros Hresolved Hanswer Hstatus.
  rewrite validateCookieWithRoblox_eq, (validate_try_resolved _ _ _ _ Hresolved).
  rewrite Hanswer. unfold validate_response. by rewrite Hstatus.
Qed.

(** *** The refresher's loop *)

Lemma unconfirmed_app log l1 l2 :
  unconfirmed log l1 -> unconfirmed (log ++ l1) l2 -> unconfirmed log (l1 ++ l2).
Proof.
  revert log. induction l1 as [|r l1 IH]; intros log H1 H2.
  - by rewrite app_nil_r in H2.
  - destruct H1 as [Hr H1]. split; [done|]. apply IH; [done|].
    by rewrite <- app_assoc.
Qed.

Lemma unconfirmed_not_refresh log l :
  Forall (fun r => is_refresh_request r = false) l -> unconfirmed log l.
Proof.
  intros H. revert log. induction H as [|r l Hr _ IH]; intros log; [done|].
  split; [|apply IH]. unfold confirms_session. by rewrite Hr.
Qed.

Lemma unconfirmed_lookup log l i r :
  unconfirmed log l -> l !! i = Some r ->
  confirms_session (log ++ take i l) r = false.
Proof.
  revert log i. induction l as [|r' l IH]; intros log i Hl Hi; [done|].
  destruct Hl as [Hr' Hl]. destruct i as [|i].
  - injection Hi as ->. cbn. by rewrite app_nil_r.
  - cbn in Hi. cbn [take]. rewrite (cons_middle r' log (take i l)), app_assoc.
    by apply IH.
Qed.

Lemma unconfirmed_one log r :
  match upstream log r with
  | Normal response => session_active (status response) = false
  | Throw _ => True
  end ->
  unconfirmed log [r].
Proof.
  intros H. split; [|done]. unfold confirms_session.
  destruct (upstream log r); [rewrite H|]; apply andb_false_r.
Qed.

(** Going on with the remaining endpoints after an iteration that issued
    [pre] without confirming the session. *)
Lemma loop_outcome_continue c log pre before between run :
  unconfirmed log pre ->
  (not_401 before -> not_401 between) ->
  loop_outcome c (log ++ pre) between run ->
  loop_outcome c log before run.
Proof.
  intros Hpre Hlast (exit & w' & issued & -> & Hlog & Hexit).
  exists exit, w', (pre ++ issued). split; [done|].
  split; [by rewrite Hlog, app_assoc|].
  destruct exit as [outcome|lastResponse].
  - destruct Hexit as [[-> (earlier & request & -> & Hearlier)]|[-> Hissued]].
    + left. split; [done|]. exists (pre ++ earlier), request.
      split; [by rewrite app_assoc|]. by apply unconfirmed_app.
    + right. split; [done|]. by apply unconfirmed_app.
  - destruct Hexit as [Hissued Hlast']. split; [by apply unconfirmed_app|]. auto.
Qed.

Lemma loop_outcome_success c log before earlier request w' :
  unconfirmed log earlier ->
  requests w' = log ++ earlier ++ [request] ->
  loop_outcome c log before (Normal (Returned (refresh_success c)), w').
Proof.
  intros Hearlier Hlog. eexists _, w', _. split; [done|]. split; [exact Hlog|].
  left. split; [done|]. by exists earlier, request.
Qed.

Lemma not_401_Some response : status response <> 401 -> not_401 (Some response).
Proof. by intros H r [= <-]. Qed.

(** The loop of the refresher, on any list of endpoints. *)
Lemma refresh_loop_outcome c eps : forall csrfToken lastResponse w,
  loop_outcome c (requests w) lastResponse
    (refresh_loop c eps csrfToken lastResponse w).
Proof.
  induction eps as [|e rest IH]; intros csrfToken lastResponse w.
  { exists (Exhausted lastResponse), w, []. split; [done|].
    split; [by rewrite app_nil_r|]. by split. }
  cbn [refresh_loop]. unfold catching at 1. rewrite fetch_eq.
  set (request := refresh_request c csrfToken e).
  destruct (upstream (requests w) request) as [response|message] eqn:Hanswer.
  2:{ apply (loop_outcome_continue c _ [request] _ lastResponse); [|done|apply IH].
      apply unconfirmed_one. by rewrite Hanswer. }
  destruct (session_active (status response)) eqn:Hactive.
  { apply (loop_outcome_success c _ _ [] request); [done|done]. }
  assert (unconfirmed (requests w) [request]) as Hfirst.
  { apply unconfirmed_one. by rewrite Hanswer. }
  assert (loop_outcome c (requests w) lastResponse
            (if status response =? 401
             then ret (Returned (refresh_failure "Cookie is invalid or expired"))
                      (logged request w)
             else refresh_loop c rest csrfToken (Some response) (logged request w)))
    as Hcheck.
  { destruct (status response =? 401) eqn:H401.
    - eexists _, _, [request]. split; [done|]. split; [done|]. right. by split.
    - apply (loop_outcome_continue c _ [request] _ (Some response)); [done| |apply IH].
      intros _. apply not_401_Some. by apply Z.eqb_neq. }
  destruct (status response =? 403) eqn:H403.
  2:{ destruct (status response =? 401); exact Hcheck. }
  assert (not_401 (Some response)) as Hlast.
  { apply not_401_Some. apply Z.eqb_eq in H403. lia. }
  unfold catching at 1, await at 1.
  destruct (text response) as [responseText|message].
  2:{ apply (loop_outcome_continue c _ [request] _ (Some response));
        [done|done|apply IH]. }
  destruct (csrf_rejection responseText).
  2:{ destruct (status response =? 401); exact Hcheck. }
  unfold catching at 1.
  destruct (getCSRFToken_run c (logged request w)) as (r & w1 & n & -> & Hlog1 & _).
  cbn [requests logged] in Hlog1.
  assert (unconfirmed (requests w) ([request] ++ probes c csrf_endpoints n))
    as Hprobed.
  { apply unconfirmed_app; [done|].
    apply unconfirmed_not_refresh, probes_csrf_not_refresh. }
  destruct (truthy r).
  2:{ apply (loop_outcome_continue c _ ([request] ++ probes c csrf_endpoints n)
               _ (Some response)); [done|done|].
      rewrite app_assoc, <- Hlog1. apply IH. }
  unfold catching at 1. rewrite fetch_eq.
  set (retry := refresh_request c r e).
  destruct (upstream (requests w1) retry) as [retryResponse|message] eqn:Hretry.
  2:{ apply (loop_outcome_continue c _
               (([request] ++ probes c csrf_endpoints n) ++ [retry])
               _ (Some response)); [|done|].
      - apply unconfirmed_app; [done|]. rewrite app_assoc, <- Hlog1.
        apply unconfirmed_one. by rewrite Hretry.
      - rewrite !app_assoc, <- Hlog1. apply IH. }
  destruct (session_active (status retryResponse)) eqn:Hactive'.
  { apply (loop_outcome_success c _ _ ([request] ++ probes c csrf_endpoints n) retry);
      [done|]. cbn [requests logged]. by rewrite Hlog1, <- !app_assoc. }
  apply (loop_outcome_continue c _
           (([request] ++ probes c csrf_endpoints n) ++ [retry])
           _ (Some response)); [|done|].
  - apply unconfirmed_app; [done|]. rewrite app_assoc, <- Hlog1.
    apply unconfirmed_one. by rewrite Hretry.
  - rewrite !app_assoc, <- Hlog1. apply IH.
Qed.

(** The token phase of the refresher never throws and sends nothing to
    the session-extending endpoints. *)
Lemma refresh_csrf_token_run c w :
  exists r w' issued,
    refresh_csrf_token c w = (Normal r, w')
    /\ requests w' = requests w ++ issued
    /\ Forall (fun r => is_refresh_request r = false) issued.
Proof.
  assert (forall (r : RefreshOutcome + option string) w0 issued0,
            requests w0 = requests w ++ issued0 ->
            Forall (fun r => is_refresh_request r = false) issued0 ->
            exists r' w' issued,
              match r with
              | inl outcome => ret (inl outcome)
              | inr csrfToken =>
                  match truthy csrfToken with
                  | Some _ => ret (inr csrfToken)
                  | None =>
                      let! csrfToken := getCSRFToken c in
                      match truthy csrfToken with
                      | None =>
                          ret (inl (refresh_failure
                                      "Could not obtain CSRF token for refresh"))
                      | Some _ => ret (inr csrfToken)
                      end
                  end
              end w0 = (Normal r', w')
              /\ requests w' = requests w ++ issued
              /\ Forall (fun r => is_refresh_request r = false) issued)
    as Hsecond.
  { intros r w0 issued0 Hlog0 Hissued0.
    destruct r as [outcome|csrfToken]; [by eexists _, _, _|].
    destruct (truthy csrfToken); [by eexists _, _, _|].
    unfold bind.
    destruct (getCSRFToken_run c w0) as (r & w1 & n & -> & Hlog1 & _).
    assert (requests w1 = requests w ++ issued0 ++ probes c csrf_endpoints n)
      as Hlog by (by rewrite Hlog1, Hlog0, app_assoc).
    assert (Forall (fun r => is_refresh_request r = false)
              (issued0 ++ probes c csrf_endpoints n)) as Hissued.
    { apply Forall_app_2; [done|apply probes_csrf_not_refresh]. }
    destruct (truthy r); by eexists _, _, _. }
  unfold refresh_csrf_token. unfold bind at 1.
  destruct (getStoredCSRFToken_run c w) as (r0 & w0 & -> & Hlog0).
  unfold bind at 1.
  destruct (truthy r0).
  { apply (Hsecond (inr r0) w0 []); [by rewrite app_nil_r|done]. }
  unfold bind at 1.
  destruct (validateCookieWithRoblox_run c w0)
    as (validation & w1 & issued1 & -> & Hlog1 & _ & Hissued1).
  rewrite Hlog0 in Hlog1.
  destruct (negb (valid validation)).
  { by apply (Hsecond (inl _) w1 issued1). }
  unfold bind at 1.
  destruct (getStoredCSRFToken_run c w1) as (r2 & w2 & -> & Hlog2).
  apply (Hsecond (inr r2) w2 issued1); [by rewrite Hlog2|done].
Qed.

Lemma refresh_try_resolved c w csrfToken w1 :
  refresh_csrf_token c w = (Normal (inr csrfToken), w1) ->
  refresh_try c w = refresh_endpoints_phase c csrfToken w1.
Proof. intros H. unfold refresh_try, bind at 1. by rewrite H. Qed.


(** *** Claims about the refresher *)

(** C10.  When the loop of the refresher, started as the code starts it
    with no [lastResponse], runs out of endpoints, [lastResponse] does not
    have status 401.  So the code after the loop reports authentication
    errors only for a last status of 403, and it gives the same outcome
    as it would without its test for 401. *)
Theorem refresh_last_response_not_401 c csrfToken w lastResponse w' :
  refresh_loop c refresh_endpoints csrfToken None w
  = (Normal (Exhausted lastResponse), w') ->
  (forall response, lastResponse = Some response -> status response <> 401)
  /\ (refreshed (after_loop c lastResponse) = false ->
      exists response, lastResponse = Some response /\ status response = 403)
  /\ after_loop c lastResponse
     = match lastResponse with
       | Some response =>
           if status response =? 403
           then refresh_failure
                  "Cookie could not be refreshed due to authentication errors"
           else refresh_unconfirmed c
       | None => refresh_unconfirmed c
       end.
Proof.
  intros Hloop.
  destruct (refresh_loop_outcome c refresh_endpoints csrfToken None w)
    as (exit & w'' & issued & Hrun & _ & Hexit).
  rewrite Hloop in Hrun. injection Hrun as <- <-.
  destruct Hexit as [_ Hlast]. specialize (Hlast ltac:(done)).
  split; [exact Hlast|].
  unfold after_loop. destruct lastResponse as [response|]; [|by split].
  specialize (Hlast response eq_refl).
  destruct (Z.eqb_spec (status response) 401); [done|].
  rewrite orb_false_r.
  destruct (Z.eqb_spec (status response) 403); [|by split].
  split; [|done]. intros _. by exists response.
Qed.

(** C6.  In any run of the refresher, a request to one of its endpoints
    that is answered 200, 201 or 204 is the last request of the run, and
    the outcome is then [refreshed = true] with the session identifier as
    [cookie], without warning or error.  The run itself never throws. *)
Theorem refresh_first_success_wins c w :
  exists outcome w' issued,
    refreshCookieWithRoblox c w = (Normal outcome, w')
    /\ requests w' = requests w ++ issued
    /\ forall i request response,
         issued !! i = Some request ->
         is_refresh_request request = true ->
         upstream (requests w ++ take i issued) request = Normal response ->
         session_active (status response) = true ->
         S i = length issued
         /\ outcome = {| refreshed := true; cookie := Some c; warning := None;
                         refresh_error := None |}.
Proof.
  assert (forall issued i request response,
            unconfirmed (requests w) issued ->
            issued !! i = Some request ->
            is_refresh_request request = true ->
            upstream (requests w ++ take i issued) request = Normal response ->
            session_active (status response) = true -> False) as Hnever.
  { intros issued i request response Hissued Hi Hrefresh Hanswer Hactive.
    pose proof (unconfirmed_lookup _ _ _ _ Hissued Hi) as Hno.
    unfold confirms_session in Hno. by rewrite Hrefresh, Hanswer, Hactive in Hno. }
  rewrite refreshCookieWithRoblox_eq. unfold refresh_try, bind at 1.
  destruct (refresh_csrf_token_run c w) as (r & w1 & issued1 & -> & Hlog1 & Hissued1).
  apply (unconfirmed_not_refresh (requests w)) in Hissued1.
  destruct r as [outcome|csrfToken].
  { exists outcome, w1, issued1. split; [done|]. split; [done|].
    intros i request response Hi Hrefresh Hanswer Hactive.
    by destruct (Hnever _ _ _ _ Hissued1 Hi Hrefresh Hanswer Hactive). }
  unfold refresh_endpoints_phase, bind.
  destruct (refresh_loop_outcome c refresh_endpoints csrfToken None w1)
    as (exit & w2 & issued2 & -> & Hlog2 & Hexit).
  rewrite Hlog1 in Hlog2, Hexit. rewrite <- app_assoc in Hlog2.
  destruct exit as [outcome|lastResponse].
  - exists outcome, w2, (issued1 ++ issued2). split; [done|]. split; [done|].
    intros i request response Hi Hrefresh Hanswer Hactive.
    destruct Hexit as [[-> (earlier & last & -> & Hearlier)]|[-> Hissued2]].
    + pose proof (unconfirmed_app _ _ _ Hissued1 Hearlier) as Hbefore.
      rewrite app_assoc in Hi, Hanswer |- *.
      destruct (decide (i < length (issued1 ++ earlier))%nat) as [Hlt|Hge].
      * rewrite lookup_app_l in Hi by done.
        rewrite take_app_le in Hanswer by lia.
        by destruct (Hnever _ _ _ _ Hbefore Hi Hrefresh Hanswer Hactive).
      * split; [|done]. apply lookup_lt_Some in Hi.
        rewrite length_app in Hi |- *. cbn in *. lia.
    + pose proof (unconfirmed_app _ _ _ Hissued1 Hissued2) as Hall.
      by destruct (Hnever _ _ _ _ Hall Hi Hrefresh Hanswer Hactive).
  - exists (after_loop c lastResponse), w2, (issued1 ++ issued2).
    split; [done|]. split; [done|].
    intros i request response Hi Hrefresh Hanswer Hactive.
    destruct Hexit as [Hissued2 _].
    pose proof (unconfirmed_app _ _ _ Hissued1 Hissued2) as Hall.
    by destruct (Hnever _ _ _ _ Hall Hi Hrefresh Hanswer Hactive).
Qed.


(** *** Redirects *)

(** The [redirect] option at the three kinds of call site. *)
Lemma redirect_options c csrfToken e :
  redirect (probe_request c e) = Some RedirectManual
  /\ redirect (refresh_request c csrfToken e) = Some RedirectManual
  /\ (forall tok, redirect (identity_request c tok) = None).
Proof. by split_and!. Qed.

(** Among the requests of a validation, the ones that follow redirects
    are exactly the validator's own identity requests: the probes of the
    acquirer are sent with [redirect: 'manual'], the identity request and
    its retry with no [redirect] option. *)
Lemma validation_redirects c w :
  exists outcome w' issued,
    validateCookieWithRoblox c w = (Normal outcome, w')
    /\ requests w' = requests w ++ issued
    /\ Forall (fun r => follows_redirects r = is_identity_request r) issued.
Proof.
  destruct (validate_try_run c w)
    as (r & w' & n & first & m & retry & Hrun & Hlog & Hfirst & Hretry).
  assert (exists outcome, validateCookieWithRoblox c w = (Normal outcome, w'))
    as [outcome Houtcome].
  { rewrite validateCookieWithRoblox_eq, Hrun. destruct r; by eexists. }
  assert (forall k, Forall (fun r => follows_redirects r = is_identity_request r)
                      (probes c csrf_endpoints k)) as Hprobes.
  { intros k. unfold probes. apply Forall_map, Forall_take. by repeat constructor. }
  assert (forall l, at_most_one_identity c l ->
                    Forall (fun r => follows_redirects r = is_identity_request r) l)
    as Hidentity.
  { intros l [->|[tok ->]]; by repeat constructor. }
  eexists outcome, w', _. split; [done|]. split; [exact Hlog|].
  repeat apply Forall_app_2; auto.
Qed.

(** ** Further properties of the code *)

(** *** Token cache *)

(** X1.  A token stored for a session is what the next lookup of that
    session returns, as long as the clock reading of the lookup is less
    than five minutes after the one of the store; the lookup changes
    nothing then.  From five minutes on the lookup returns [null], and the
    map it leaves is the one from before the store without the session's
    entry. *)
Theorem store_then_lookup c tok w :
  let stored := snd (storeCSRFToken c tok w) in
  let age := clock (clock_reads stored) - clock (clock_reads w) in
  (age < 5 * 60 * 1000 ->
   getStoredCSRFToken c stored = (Normal (Some tok), ticked stored))
  /\ (5 * 60 * 1000 <= age ->
      fst (getStoredCSRFToken c stored) = Normal None
      /\ csrfTokens (snd (getStoredCSRFToken c stored)) = delete c (csrfTokens w)).
Proof.
  intros stored age. subst stored age. rewrite storeCSRFToken_eq.
  cbn [snd]. rewrite getStoredCSRFToken_eq. cbn [csrfTokens cached clock_reads].
  rewrite lookup_insert_eq. cbn [timestamp token]. split.
  - intros Hfresh. apply Z.ltb_lt in Hfresh. by rewrite Hfresh.
  - intros Hstale. apply Z.ltb_ge in Hstale. rewrite Hstale. cbn.
    split; [done|]. apply delete_insert_eq.
Qed.

(** X2.  The cache keeps one token per session and the last store wins:
    after two stores for the same session the map is the one a single
    store of the second token would give, a lookup within five minutes
    returns the second token, and no store touches the entry of another
    session. *)
Theorem store_overwrites c tok1 tok2 w :
  let once := snd (storeCSRFToken c tok1 w) in
  let twice := snd (storeCSRFToken c tok2 once) in
  csrfTokens twice
  = <[c := {| token := tok2; timestamp := clock (clock_reads once) |}]> (csrfTokens w)
  /\ (clock (clock_reads twice) - clock (clock_reads once) < 5 * 60 * 1000 ->
      fst (getStoredCSRFToken c twice) = Normal (Some tok2))
  /\ (forall other, other <> c ->
        csrfTokens twice !! other = csrfTokens w !! other).
Proof.
  intros once twice. subst once twice. rewrite !storeCSRFToken_eq.
  cbn [snd csrfTokens cached clock_reads]. split_and!.
  - apply insert_insert_eq.
  - intros Hfresh. rewrite getStoredCSRFToken_eq. cbn [csrfTokens cached clock_reads].
    rewrite lookup_insert_eq. cbn [timestamp token].
    apply Z.ltb_lt in Hfresh. by rewrite Hfresh.
  - intros other Hother. by rewrite !lookup_insert_ne.
Qed.

(** X3.  A lookup that returns [null] leaves a state in which the session
    has no entry: the next lookup returns [null] again, whatever the
    clock says by then, and changes nothing, not even the count of clock
    readings. *)
Theorem lookup_miss_is_stable c w :
  fst (getStoredCSRFToken c w) = Normal None ->
  csrfTokens (snd (getStoredCSRFToken c w)) !! c = None
  /\ getStoredCSRFToken c (snd (getStoredCSRFToken c w))
     = (Normal None, snd (getStoredCSRFToken c w)).
Proof.
  rewrite getStoredCSRFToken_eq.
  destruct (csrfTokens w !! c) as [data|] eqn:Hdata.
  - destruct (_ <? _); [done|]. intros _. cbn [snd csrfTokens].
    split; [apply lookup_delete_eq|].
    rewrite getStoredCSRFToken_eq. cbn [csrfTokens]. by rewrite lookup_delete_eq.
  - intros _. cbn [snd]. split; [done|].
    rewrite getStoredCSRFToken_eq. by rewrite Hdata.
Qed.

(** *** Token acquirer *)

Lemma length_probes c eps n : length (probes c eps n) = (n `min` length eps)%nat.
Proof. unfold probes. by rewrite length_map, length_take. Qed.

(** X4.  A run of the acquirer sends at least one probe and at most four.
    When it returns a token, the token is a non-empty string, the clock
    was read once, and the map holds that token for the session with the
    time read.  When it returns [null], all four probes were sent, the
    clock was not read and the map is untouched. *)
Theorem acquire_result_consistent c w :
  exists r w' n,
    getCSRFToken c w = (Normal r, w')
    /\ requests w' = requests w ++ probes c csrf_endpoints n
    /\ (1 <= n <= 4)%nat
    /\ length (requests w') = (length (requests w) + n)%nat
    /\ match r with
       | Some tok =>
           tok <> ""
           /\ csrfTokens w'
              = <[c := {| token := tok; timestamp := clock (clock_reads w) |}]>
                  (csrfTokens w)
           /\ clock_reads w' = S (clock_reads w)
       | None =>
           n = 4%nat /\ csrfTokens w' = csrfTokens w
           /\ clock_reads w' = clock_reads w
       end.
Proof.
  destruct (getCSRFToken_loop_cases c csrf_endpoints w)
    as [(k & tok & Hk & Hoffer & _ & Hrun)|[_ Hrun]].
  - eexists (Some tok), _, (S k). split; [exact Hrun|].
    cbn [requests csrfTokens clock_reads]. cbn [length csrf_endpoints] in Hk.
    split; [done|]. split; [lia|]. split.
    { rewrite length_app, length_probes. cbn [length csrf_endpoints]. lia. }
    split; [|done]. unfold probe_offer in Hoffer.
    destruct (probe_answer c (requests w) csrf_endpoints k) as [[response|m]|];
      cbn in Hoffer; try done.
    by apply truthy_nonempty in Hoffer.
  - eexists None, _, 4%nat. split; [exact Hrun|].
    cbn [requests csrfTokens clock_reads]. split; [done|]. split; [lia|].
    split; [|done]. by rewrite length_app, length_probes.
Qed.

(** *** What a run can change

    Every function is put together from four elementary effects.  A
    relation that holds along each of them holds between the state before
    and the state after any run for the session. *)

Lemma bind_assoc {A B C} (m : M A) (f : A -> M B) (g : B -> M C) w :
  bind (bind m f) g w = bind m (fun x => bind (f x) g) w.
Proof. unfold bind. by destruct (m w) as [[a|e] w']. Qed.

Section Closure.

Variable c : string.
Variable R : World -> World -> Prop.
Hypothesis HR : step_closed c R.

Lemma closed_refl w : R w w.
Proof. apply HR. Qed.

Lemma closed_trans w1 w2 w3 : R w1 w2 -> R w2 w3 -> R w1 w3.
Proof. destruct HR as (_ & Htrans & _). apply Htrans. Qed.

Lemma closed_logged w request : session_request c request -> R w (logged request w).
Proof. destruct HR as (_ & _ & _ & Hlogged & _). apply Hlogged. Qed.

Lemma closed_cached w tok now : tok <> "" -> R w (cached c tok now w).
Proof.
  intros Htok. destruct HR as (_ & Htrans & Htick & _ & Hstore & _).
  apply (Htrans _ (ticked w)); [apply Htick|]. by apply (Hstore (ticked w)).
Qed.

Lemma closed_getStoredCSRFToken w : R w (snd (getStoredCSRFToken c w)).
Proof.
  rewrite getStoredCSRFToken_eq. destruct HR as (Hrefl & Htrans & Htick & _ & _ & Hdelete).
  destruct (csrfTokens w !! c) as [data|]; [|apply Hrefl].
  destruct (_ <? _); cbn [snd].
  - apply Htick.
  - apply (Htrans _ (ticked w)); [apply Htick|]. apply (Hdelete (ticked w)).
Qed.

Lemma closed_getCSRFToken_loop eps :
  (forall e, e ∈ eps -> e ∈ csrf_endpoints) ->
  forall w, R w (snd (getCSRFToken_loop c eps w)).
Proof.
  induction eps as [|e rest IH]; intros Heps w; [apply closed_refl|].
  assert (R w (logged (probe_request c e) w)) as Hprobe.
  { apply closed_logged. left. exists e. split; [|done]. apply Heps. by left. }
  rewrite getCSRFToken_loop_cons.
  destruct (offered_token (upstream (requests w) (probe_request c e)))
    as [tok|] eqn:Hoffer.
  - cbn [snd]. apply (closed_trans _ _ _ Hprobe). apply closed_cached.
    destruct (upstream (requests w) (probe_request c e)); cbn in Hoffer; [|done].
    by apply truthy_nonempty in Hoffer.
  - apply (closed_trans _ _ _ Hprobe). apply IH. intros e' He'. apply Heps. by right.
Qed.

Lemma closed_getCSRFToken w : R w (snd (getCSRFToken c w)).
Proof. by apply closed_getCSRFToken_loop. Qed.

Lemma closed_stored_or_fetched w : R w (snd (stored_or_fetched c w)).
Proof.
  unfold stored_or_fetched, bind.
  pose proof (closed_getStoredCSRFToken w) as Hlookup.
  destruct (getStoredCSRFToken_run c w) as (r0 & w0 & Hrun & _).
  rewrite Hrun in Hlookup |- *. cbn [snd] in Hlookup.
  destruct (truthy r0); [exact Hlookup|].
  apply (closed_trans _ _ _ Hlookup), closed_getCSRFToken.
Qed.

Lemma closed_validate_response response w :
  R w (snd (validate_response c response w)).
Proof.
  unfold validate_response.
  destruct (status response =? 401); [apply closed_refl|].
  destruct (status response =? 403).
  - unfold bind at 1, await at 1.
    destruct (text response) as [responseText|message]; [|apply closed_refl].
    destruct (csrf_rejection responseText); [|apply closed_refl].
    unfold bind at 1.
    pose proof (closed_getCSRFToken w) as Hrefetch.
    destruct (getCSRFToken_run c w) as (r & w1 & n & Hrun & _ & _).
    rewrite Hrun in Hrefetch |- *. cbn [snd] in Hrefetch.
    destruct (truthy r) as [tok|] eqn:Htok; [|exact Hrefetch].
    unfold bind at 1. rewrite fetch_eq.
    assert (R w (logged (identity_request c tok) w1)) as Hretry.
    { apply (closed_trans _ _ _ Hrefetch), closed_logged. right. left.
      exists tok. split; [|done]. by apply truthy_nonempty in Htok. }
    destruct (upstream (requests w1) (identity_request c tok))
      as [retryResponse|message]; [|exact Hretry].
    destruct (negb (ok retryResponse)); [exact Hretry|].
    unfold bind at 1, await at 1.
    destruct (json retryResponse) as [userData|message]; [|exact Hretry].
    destruct (identity_of_run userData (logged (identity_request c tok) w1))
      as (r' & ->).
    exact Hretry.
  - destruct (negb (ok response)); [apply closed_refl|].
    unfold bind at 1, await at 1.
    destruct (json response) as [userData|message]; [|apply closed_refl].
    unfold bind at 1, await at 1.
    destruct (get_property userData "name") as [name|message]; [|apply closed_refl].
    unfold bind at 1, await at 1.
    destruct (template_literal name); [|apply closed_refl].
    destruct (identity_of_run userData w) as (r' & ->). apply closed_refl.
Qed.

Lemma closed_validateCookieWithRoblox w :
  R w (snd (validateCookieWithRoblox c w)).
Proof.
  assert (R w (snd (validate_try c w))) as Htry.
  { pose proof (closed_stored_or_fetched w) as Hresolved.
    destruct (stored_or_fetched_run c w) as (r0 & w1 & n & Hrun & _ & Htruthy).
    rewrite Hrun in Hresolved. cbn [snd] in Hresolved.
    destruct r0 as [csrfToken|].
    - rewrite (validate_try_resolved _ _ _ _ Hrun).
      assert (R w (logged (identity_request c csrfToken) w1)) as Hsent.
      { apply (closed_trans _ _ _ Hresolved), closed_logged. right. left.
        exists csrfToken. split; [|done]. by apply truthy_nonempty in Htruthy. }
      destruct (upstream (requests w1) (identity_request c csrfToken));
        [|exact Hsent].
      apply (closed_trans _ _ _ Hsent), closed_validate_response.
    - by rewrite (validate_try_unresolved _ _ _ Hrun). }
  rewrite validateCookieWithRoblox_eq.
  by destruct (validate_try c w) as [[outcome|message] w'].
Qed.

Lemma closed_refresh_loop eps :
  (forall e, e ∈ eps -> e ∈ refresh_endpoints) ->
  forall csrfToken lastResponse w,
    truthy csrfToken = csrfToken ->
    R w (snd (refresh_loop c eps csrfToken lastResponse w)).
Proof.
  induction eps as [|e rest IH]; intros Heps csrfToken lastResponse w Htoken;
    [apply closed_refl|].
  assert (forall e', e' ∈ rest -> e' ∈ refresh_endpoints) as Hrest.
  { intros e' He'. apply Heps. by right. }
  specialize (IH Hrest).
  assert (forall tok w0, truthy tok = tok ->
            R w0 (logged (refresh_request c tok e) w0)) as Hsend.
  { intros tok w0 Htok. apply closed_logged. right. right. exists e, tok.
    split; [apply Heps; by left|done]. }
  cbn [refresh_loop]. unfold catching at 1. rewrite fetch_eq.
  pose proof (Hsend csrfToken w Htoken) as Hfirst.
  assert (forall last, R w (snd (refresh_loop c rest csrfToken last
                                   (logged (refresh_request c csrfToken e) w))))
    as Hnext.
  { intros last. apply (closed_trans _ _ _ Hfirst). by apply IH. }
  destruct (upstream (requests w) (refresh_request c csrfToken e))
    as [response|message]; [|apply Hnext].
  destruct (session_active (status response)); [exact Hfirst|].
  destruct (status response =? 403).
  2:{ destruct (status response =? 401); [exact Hfirst|apply Hnext]. }
  unfold catching at 1, await at 1.
  destruct (text response) as [responseText|message]; [|apply Hnext].
  destruct (csrf_rejection responseText).
  2:{ destruct (status response =? 401); [exact Hfirst|apply Hnext]. }
  unfold catching at 1.
  pose proof (closed_getCSRFToken (logged (refresh_request c csrfToken e) w))
    as Hrefetch.
  destruct (getCSRFToken_run c (logged (refresh_request c csrfToken e) w))
    as (r & w1 & n & Hrun & _ & Hr).
  rewrite Hrun in Hrefetch |- *. cbn [snd] in Hrefetch.
  pose proof (closed_trans _ _ _ Hfirst Hrefetch) as Hprobed.
  assert (truthy r = r) as Hr' by done.
  destruct (truthy r) eqn:Htruthy in |- *.
  2:{ apply (closed_trans _ _ _ Hprobed). by apply IH. }
  unfold catching at 1. rewrite fetch_eq.
  pose proof (closed_trans _ _ _ Hprobed (Hsend r w1 Hr')) as Hretried.
  destruct (upstream (requests w1) (refresh_request c r e))
    as [retryResponse|message].
  - destruct (session_active (status retryResponse)); [exact Hretried|].
    apply (closed_trans _ _ _ Hretried). by apply IH.
  - apply (closed_trans _ _ _ Hretried). by apply IH.
Qed.

Lemma truthy_fixed v s : truthy v = Some s -> truthy v = v.
Proof. intros H. by rewrite (truthy_Some _ _ H) in H |- *. Qed.

Lemma closed_refresh_try w : R w (snd (refresh_try c w)).
Proof.
  assert (forall (first : RefreshOutcome + option string) w0,
            R w w0 ->
            R w (snd ((let! resolved :=
                         match first with
                         | inl outcome => ret (inl outcome)
                         | inr csrfToken =>
                             match truthy csrfToken with
                             | Some _ => ret (inr csrfToken)
                             | None =>
                                 let! csrfToken := getCSRFToken c in
                                 match truthy csrfToken with
                                 | None =>
                                     ret (inl (refresh_failure
                                                 "Could not obtain CSRF token for refresh"))
                                 | Some _ => ret (inr csrfToken)
                                 end
                             end
                         end in
                       match resolved with
                       | inl outcome => ret outcome
                       | inr csrfToken => refresh_endpoints_phase c csrfToken
                       end) w0))) as Hsecond.
  { assert (forall csrfToken w0, truthy csrfToken = csrfToken -> R w w0 ->
              R w (snd (refresh_endpoints_phase c csrfToken w0))) as Hloop.
    { intros csrfToken w0 Htoken Hw0. unfold refresh_endpoints_phase, bind.
      pose proof (closed_refresh_loop refresh_endpoints ltac:(done)
                    csrfToken None w0 Htoken) as Hrun.
      destruct (refresh_loop c refresh_endpoints csrfToken None w0)
        as [[[outcome|lastResponse]|message] w1]; cbn [snd] in Hrun |- *;
        by apply (closed_trans _ _ _ Hw0). }
    intros first w0 Hw0. destruct first as [outcome|csrfToken]; [exact Hw0|].
    destruct (truthy csrfToken) eqn:Htruthy.
    { unfold bind, ret. apply Hloop; [by apply truthy_fixed in Htruthy|done]. }
    unfold bind at 1, bind at 1.
    pose proof (closed_getCSRFToken w0) as Hfetch.
    destruct (getCSRFToken_run c w0) as (r & w1 & n & Hrun & _ & Hr).
    rewrite Hrun in Hfetch |- *. cbn [snd] in Hfetch.
    pose proof (closed_trans _ _ _ Hw0 Hfetch) as Hw1.
    destruct (truthy r) eqn:Htruthy' in |- *; [|exact Hw1].
    unfold ret. by apply Hloop. }
  unfold refresh_try, refresh_csrf_token.
  pose proof (closed_getStoredCSRFToken w) as Hlookup.
  destruct (getStoredCSRFToken_run c w) as (r0 & w0 & Hrun0 & _).
  rewrite Hrun0 in Hlookup. cbn [snd] in Hlookup.
  rewrite bind_assoc. unfold bind at 1. rewrite Hrun0. rewrite bind_assoc.
  destruct (truthy r0).
  { apply (Hsecond (inr r0) w0 Hlookup). }
  rewrite bind_assoc. unfold bind at 1.
  pose proof (closed_validateCookieWithRoblox w0) as Hvalidated.
  destruct (validateCookieWithRoblox_run c w0)
    as (validation & w1 & issued1 & Hrun1 & _).
  rewrite Hrun1 in Hvalidated |- *. cbn [snd] in Hvalidated.
  pose proof (closed_trans _ _ _ Hlookup Hvalidated) as Hw1.
  destruct (negb (valid validation)).
  { apply (Hsecond (inl _) w1 Hw1). }
  rewrite bind_assoc. unfold bind at 1.
  pose proof (closed_getStoredCSRFToken w1) as Hlookup2.
  destruct (getStoredCSRFToken_run c w1) as (r2 & w2 & Hrun2 & _).
  rewrite Hrun2 in Hlookup2 |- *. cbn [snd] in Hlookup2.
  apply (Hsecond (inr r2) w2). by apply (closed_trans _ _ _ Hw1).
Qed.

Lemma closed_refreshCookieWithRoblox w :
  R w (snd (refreshCookieWithRoblox c w)).
Proof.
  pose proof (closed_refresh_try w) as Htry.
  rewrite refreshCookieWithRoblox_eq.
  by destruct (refresh_try c w) as [[outcome|message] w'].
Qed.

End Closure.

(** *** Invariants of the cache and of the requests *)

Lemma step_closed_other_sessions c other :
  other <> c ->
  step_closed c (fun w w' => csrfTokens w' !! other = csrfTokens w !! other).
Proof.
  intros Hother. split_and!; try done.
  - intros w1 w2 w3 H12 H23. by rewrite H23.
  - intros w tok now _. cbn. by rewrite lookup_insert_ne.
  - intros w. cbn. by rewrite lookup_delete_ne.
Qed.

(** X5.  Whatever a run for one session does, it leaves the cache entry
    of every other session as it was: this holds for a lookup, for the
    acquirer, for a validation and for a refresh. *)
Theorem other_sessions_untouched c other w :
  other <> c ->
  csrfTokens (snd (getStoredCSRFToken c w)) !! other = csrfTokens w !! other
  /\ csrfTokens (snd (getCSRFToken c w)) !! other = csrfTokens w !! other
  /\ csrfTokens (snd (validateCookieWithRoblox c w)) !! other = csrfTokens w !! other
  /\ csrfTokens (snd (refreshCookieWithRoblox c w)) !! other = csrfTokens w !! other.
Proof.
  intros Hother. pose proof (step_closed_other_sessions c other Hother) as Hclosed.
  split_and!.
  - apply (closed_getStoredCSRFToken c _ Hclosed).
  - apply (closed_getCSRFToken c _ Hclosed).
  - apply (closed_validateCookieWithRoblox c _ Hclosed).
  - apply (closed_refreshCookieWithRoblox c _ Hclosed).
Qed.

Lemma step_closed_tokens_nonempty c :
  step_closed c (fun w w' => tokens_nonempty w -> tokens_nonempty w').
Proof.
  split_and!; try done.
  - intros w1 w2 w3 H12 H23 H1. auto.
  - intros w tok now Htok Hw session data. cbn.
    destruct (decide (session = c)) as [->|Hne].
    + rewrite lookup_insert_eq. by intros [= <-].
    + rewrite lookup_insert_ne by done. apply Hw.
  - intros w Hw session data. cbn. intros Hdata.
    apply lookup_delete_Some in Hdata as [_ Hdata]. by apply (Hw session).
Qed.

(** X6.  The cache never comes to hold an empty token: if every token in
    the map is a non-empty string before a run of the acquirer, of a
    validation or of a refresh, the same is true after it, and a lookup
    in such a state returns [null] or a non-empty token. *)
Theorem cache_tokens_stay_nonempty c w :
  tokens_nonempty w ->
  tokens_nonempty (snd (getCSRFToken c w))
  /\ tokens_nonempty (snd (validateCookieWithRoblox c w))
  /\ tokens_nonempty (snd (refreshCookieWithRoblox c w))
  /\ (forall tok, fst (getStoredCSRFToken c w) = Normal (Some tok) -> tok <> "").
Proof.
  intros Hw. pose proof (step_closed_tokens_nonempty c) as Hclosed. split_and!.
  - by apply (closed_getCSRFToken c _ Hclosed).
  - by apply (closed_validateCookieWithRoblox c _ Hclosed).
  - by apply (closed_refreshCookieWithRoblox c _ Hclosed).
  - intros tok. rewrite getStoredCSRFToken_eq.
    destruct (csrfTokens w !! c) as [data|] eqn:Hdata; [|done].
    destruct (_ <? _); [|done]. intros [= <-]. by apply (Hw c).
Qed.

Lemma step_closed_requests c :
  step_closed c (fun w w' =>
    exists issued,
      requests w' = requests w ++ issued /\ Forall (session_request c) issued).
Proof.
  split_and!.
  - intros w. exists []. by rewrite app_nil_r.
  - intros w1 w2 w3 (l1 & H1 & Hl1) (l2 & H2 & Hl2). exists (l1 ++ l2).
    split; [by rewrite H2, H1, app_assoc|by apply Forall_app_2].
  - intros w. exists []. by rewrite app_nil_r.
  - intros w request Hrequest. exists [request]. split; [done|by constructor].
  - intros w tok now _. exists []. by rewrite app_nil_r.
  - intros w. exists []. by rewrite app_nil_r.
Qed.

(** What the three forms of request have in common. *)
Lemma session_request_facts c request :
  session_request c request ->
  Cookie request = ".ROBLOSECURITY=" +:+ c
  /\ (follows_redirects request = true -> is_identity_request request = true)
  /\ X_CSRF_TOKEN request <> CsrfHeaderOf (Some "")
  /\ url request
     ∈ map endpoint_url csrf_endpoints ++ map endpoint_url refresh_endpoints.
Proof.
  intros [(e & He & ->)|[(tok & Htok & ->)|(e & tok & He & Htok & ->)]].
  - split_and!; try done. cbn [url probe_request].
    apply elem_of_app. left. by apply list_elem_of_fmap_2.
  - split_and!; try done.
    + cbn. by intros [= ->].
    + cbn. set_solver.
  - split_and!; try done.
    + cbn. intros [= ->]. by cbn in Htok.
    + cbn [url refresh_request]. apply elem_of_app. right.
      by apply list_elem_of_fmap_2.
Qed.

(** X7.  Every request that a validation or a refresh of a session sends
    is one of three forms: a probe of one of the four acquisition
    endpoints, an identity request with a non-empty token, or a request
    to one of the three session-extending endpoints with a token that is
    [null] or non-empty.  So each carries the cookie of that session and
    no other, none carries an empty token, none goes to an address outside
    the two lists, and the only ones sent without [redirect: 'manual']
    are the validator's identity requests. *)
Theorem requests_keep_to_the_session c w :
  exists validated refreshed,
    requests (snd (validateCookieWithRoblox c w)) = requests w ++ validated
    /\ requests (snd (refreshCookieWithRoblox c w)) = requests w ++ refreshed
    /\ Forall (fun request =>
                 session_request c request
                 /\ Cookie request = ".ROBLOSECURITY=" +:+ c
                 /\ (follows_redirects request = true ->
                     is_identity_request request = true)
                 /\ X_CSRF_TOKEN request <> CsrfHeaderOf (Some "")
                 /\ url request
                    ∈ map endpoint_url csrf_endpoints
                      ++ map endpoint_url refresh_endpoints)
              (validated ++ refreshed).
Proof.
  destruct (closed_validateCookieWithRoblox c _ (step_closed_requests c) w)
    as (validated & Hvalidated & Hforms).
  destruct (closed_refreshCookieWithRoblox c _ (step_closed_requests c) w)
    as (refreshed & Hrefreshed & Hforms').
  exists validated, refreshed. split; [done|]. split; [done|].
  apply Forall_app_2; (eapply Forall_impl; [eassumption|]);
    intros request Hrequest; (split; [done|by apply session_request_facts]).
Qed.

(** *** Session validator *)

Lemma ok_status response :
  ok response = true ->
  (status response =? 401) = false /\ (status response =? 403) = false.
Proof.
  unfold ok. intros [Hlow Hhigh]%andb_true_iff.
  apply Z.leb_le in Hlow. apply Z.ltb_lt in Hhigh. split; apply Z.eqb_neq; lia.
Qed.

Lemma stored_or_fetched_cached c w data :
  csrfTokens w !! c = Some data ->
  token data <> "" ->
  clock (clock_reads w) - timestamp data < 5 * 60 * 1000 ->
  stored_or_fetched c w = (Normal (Some (token data)), ticked w).
Proof.
  intros Hdata Htoken Hfresh. unfold stored_or_fetched, bind.
  rewrite getStoredCSRFToken_eq, Hdata. apply Z.ltb_lt in Hfresh. rewrite Hfresh.
  cbn [truthy]. by destruct (String.eqb_spec (token data) "").
Qed.

(** X8.  A validation that finds a fresh, non-empty token in the cache
    sends no probe before its identity request: the first request of the
    run is the identity request with the cached token. *)
Theorem validate_cache_hit c w data :
  csrfTokens w !! c = Some data ->
  token data <> "" ->
  clock (clock_reads w) - timestamp data < 5 * 60 * 1000 ->
  exists outcome w' later,
    validateCookieWithRoblox c w = (Normal outcome, w')
    /\ requests w' = requests w ++ identity_request c (token data) :: later.
Proof.
  intros Hdata Htoken Hfresh.
  pose proof (stored_or_fetched_cached c w data Hdata Htoken Hfresh) as Hresolved.
  rewrite validateCookieWithRoblox_eq, (validate_try_resolved _ _ _ _ Hresolved).
  cbn [requests ticked].
  destruct (upstream (requests w) (identity_request c (token data)))
    as [response|message].
  - destruct (validate_response_run c response
                (logged (identity_request c (token data)) (ticked w)))
      as (r & w' & n & retry & -> & Hlog & _).
    cbn [requests logged ticked] in Hlog. rewrite <- app_assoc in Hlog.
    destruct r as [outcome|message]; by eexists _, w', _.
  - by eexists _, _, [].
Qed.

(** X9.  When the cache has no usable token for the session and no probe
    of the acquirer offers one, the validation ends with [valid = false]
    and the error "Could not obtain CSRF token for validation" after the
    four probes: no identity request is sent, and the cache is as the
    lookup left it. *)
Theorem validate_without_token c w stored w0 :
  getStoredCSRFToken c w = (Normal stored, w0) ->
  truthy stored = None ->
  (forall i, probe_offer c (requests w0) csrf_endpoints i = None) ->
  validateCookieWithRoblox c w
  = (Normal {| valid := false; userId := None; username := None;
               displayName := None;
               error := Some "Could not obtain CSRF token for validation" |},
     {| csrfTokens := csrfTokens w0;
        requests := requests w ++ probes c csrf_endpoints 4;
        clock_reads := clock_reads w0 |})
  /\ identity_requests (probes c csrf_endpoints 4) = 0%nat.
Proof.
  intros Hlookup Hstored Hnone. split; [|apply identity_requests_probes].
  destruct (getStoredCSRFToken_run c w) as (r & w0' & Hrun & Hlog).
  rewrite Hlookup in Hrun. injection Hrun as <- <-.
  rewrite validateCookieWithRoblox_eq.
  rewrite (validate_try_unresolved c w
             {| csrfTokens := csrfTokens w0;
                requests := requests w ++ probes c csrf_endpoints 4;
                clock_reads := clock_reads w0 |}); [done|].
  unfold stored_or_fetched, bind. rewrite Hlookup, Hstored.
  unfold getCSRFToken. rewrite (getCSRFToken_loop_no_offer c _ _ Hnone).
  by rewrite Hlog.
Qed.

(** X10.  The validator retries only after a rejection of its token.  With
    the token resolved, if the answer to the identity request is anything
    but a 403 whose body can be read and carries a rejection marker, the
    run ends with that request: no retry, no further probe, the cache
    untouched.  A 403 without marker gives the error "Access forbidden
    (403). Cookie may have insufficient permissions."; a status outside
    200-299 other than 401 and 403 gives "Roblox API returned" followed
    by the status. *)
Theorem validate_stops_without_rejection c w csrfToken w1 :
  stored_or_fetched c w = (Normal (Some csrfToken), w1) ->
  (forall response responseText,
     upstream (requests w1) (identity_request c csrfToken) = Normal response ->
     status response = 403 ->
     text response = Normal responseText ->
     csrf_rejection responseText = false) ->
  snd (validateCookieWithRoblox c w) = logged (identity_request c csrfToken) w1
  /\ (forall response responseText,
        upstream (requests w1) (identity_request c csrfToken) = Normal response ->
        status response = 403 ->
        text response = Normal responseText ->
        fst (validateCookieWithRoblox c w)
        = Normal (invalid
                    "Access forbidden (403). Cookie may have insufficient permissions."))
  /\ (forall response,
        upstream (requests w1) (identity_request c csrfToken) = Normal response ->
        ok response = false ->
        status response <> 401 ->
        status response <> 403 ->
        fst (validateCookieWithRoblox c w)
        = Normal (invalid ("Roblox API returned " +:+ pretty (status response)))).
Proof.
  intros Hresolved Hplain.
  rewrite validateCookieWithRoblox_eq, (validate_try_resolved _ _ _ _ Hresolved).
  split_and!.
  - destruct (upstream (requests w1) (identity_request c csrfToken))
      as [response|message] eqn:Hanswer; [|done].
    assert (forall r : Completion ValidationOutcome,
              (let (c0, w') := (r, logged (identity_request c csrfToken) w1) in
               match c0 with
               | Normal outcome => (Normal outcome, w')
               | Throw message => (Normal (invalid message), w')
               end).2 = logged (identity_request c csrfToken) w1) as Hsame.
    { by intros [outcome|message]. }
    unfold validate_response.
    destruct (status response =? 401); [done|].
    destruct (Z.eqb_spec (status response) 403) as [H403|H403].
    + unfold bind at 1, await at 1.
      destruct (text response) as [responseText|message] eqn:Htext; [|done].
      by rewrite (Hplain response responseText eq_refl H403 Htext).
    + destruct (negb (ok response)); [done|].
      unfold bind at 1, await at 1.
      destruct (json response) as [userData|message]; [|done].
      unfold bind at 1, await at 1.
      destruct (get_property userData "name") as [name|message]; [|done].
      unfold bind at 1, await at 1.
      destruct (template_literal name); [|done].
      destruct (identity_of_run userData (logged (identity_request c csrfToken) w1))
        as (r' & ->). apply Hsame.
  - intros response responseText Hanswer H403 Htext. rewrite Hanswer.
    unfold validate_response. rewrite H403. cbn [Z.eqb Pos.eqb].
    unfold bind at 1, await at 1.
    by rewrite Htext, (Hplain response responseText Hanswer H403 Htext).
  - intros response Hanswer Hok H401 H403. rewrite Hanswer.
    unfold validate_response. apply Z.eqb_neq in H401, H403.
    by rewrite H401, H403, Hok.
Qed.

(** X11.  With the token resolved, an identity request answered with a
    status in 200-299 ends the validation at once, and the outcome is read
    from the body.  A JSON object gives [valid = true] with the values of
    its properties [id], [name] and [displayName], [undefined] for one it
    does not have, provided its [name] can be converted to a string for the
    console; when that conversion throws (the name is an object with a
    [toString] property of its own, or an array holding one) the outcome
    is [valid = false] with the message of the TypeError.  The JSON value
    [null] gives [valid = false] with the message of the TypeError that
    reading its [name] raises.  Any other JSON value gives [valid = true]
    with three [undefined].  A body that is not JSON gives [valid = false]
    with the parser's message. *)
Theorem validate_accepts_identity c w csrfToken w1 response :
  stored_or_fetched c w = (Normal (Some csrfToken), w1) ->
  upstream (requests w1) (identity_request c csrfToken) = Normal response ->
  ok response = true ->
  exists outcome,
    validateCookieWithRoblox c w
    = (Normal outcome, logged (identity_request c csrfToken) w1)
    /\ match json response with
       | Normal (JObj fields) =>
           if match field_of "name" fields with
              | JSJson name => conversion_throws name
              | JSUndefined => false
              end
           then exists message, outcome = invalid message
           else outcome = {| valid := true;
                             userId := Some (field_of "id" fields);
                             username := Some (field_of "name" fields);
                             displayName := Some (field_of "displayName" fields);
                             error := None |}
       | Normal JNull => exists message, outcome = invalid message
       | Normal _ =>
           outcome = {| valid := true; userId := Some JSUndefined;
                        username := Some JSUndefined;
                        displayName := Some JSUndefined; error := None |}
       | Throw message => outcome = invalid message
       end.
Proof.
  intros Hresolved Hanswer Hok.
  rewrite validateCookieWithRoblox_eq, (validate_try_resolved _ _ _ _ Hresolved).
  rewrite Hanswer. unfold validate_response.
  destruct (ok_status response Hok) as [-> ->]. rewrite Hok. cbn [negb].
  unfold bind at 1, await at 1.
  destruct (json response) as [userData|message]; [|by eexists].
  destruct userData as [|b|literal|s|items|fields];
    try (eexists; split; [reflexivity|]; by eauto).
  unfold bind at 1, await at 1. cbn [get_property].
  unfold bind at 1, await at 1, template_literal.
  destruct (field_of "name" fields) as [|name] eqn:Hname.
  - eexists. split; [|reflexivity]. cbn. by rewrite Hname.
  - destruct (conversion_throws name).
    + eexists. split; [reflexivity|]. by eexists.
    + eexists. split; [|reflexivity]. cbn. by rewrite Hname.
Qed.

Lemma identity_of_cases userData w :
  (exists id name display,
     get_property userData "id" = Normal id
     /\ get_property userData "name" = Normal name
     /\ get_property userData "displayName" = Normal display
     /\ identity_of userData w
        = (Normal {| valid := true; userId := Some id; username := Some name;
                     displayName := Some display; error := None |}, w))
  \/ (exists message, identity_of userData w = (Throw message, w)).
Proof.
  unfold identity_of, bind, await, ret.
  destruct (get_property userData "id") as [id|m]; [|right; by eexists].
  destruct (get_property userData "name") as [name|m]; [|right; by eexists].
  destruct (get_property userData "displayName") as [display|m];
    [|right; by eexists].
  left. by exists id, name, display.
Qed.

(** What the validator makes of the answer to its first identity request:
    an outcome with an error, or one that rests on an accepted identity
    request, the first or the retry. *)
Lemma validate_response_sound c response w before csrfToken :
  requests w = before ++ [identity_request c csrfToken] ->
  upstream before (identity_request c csrfToken) = Normal response ->
  exists r w',
    validate_response c response w = (r, w')
    /\ match r with
       | Normal outcome =>
           (exists message, outcome = invalid message)
           \/ identity_accepted c (requests w') outcome
       | Throw _ => True
       end.
Proof.
  intros Hlog Hanswer.
  assert (forall message,
            exists r w',
              (Normal (invalid message), w) = (r, w')
              /\ match r with
                 | Normal outcome =>
                     (exists message, outcome = invalid message)
                     \/ identity_accepted c (requests w') outcome
                 | Throw _ => True
                 end) as Hinvalid.
  { intros message. eexists _, _. split; [done|]. left. by eexists. }
  assert (forall (message : string) w0,
            exists r w',
              (@Throw ValidationOutcome message, w0) = (r, w')
              /\ match r with
                 | Normal outcome =>
                     (exists message, outcome = invalid message)
                     \/ identity_accepted c (requests w') outcome
                 | Throw _ => True
                 end) as Hthrow.
  { intros message w0. by eexists _, _. }
  assert (forall w0 log tok answered userData,
            requests w0 = log ++ [identity_request c tok] ->
            upstream log (identity_request c tok) = Normal answered ->
            ok answered = true ->
            json answered = Normal userData ->
            exists r w',
              identity_of userData w0 = (r, w')
              /\ match r with
                 | Normal outcome =>
                     (exists message, outcome = invalid message)
                     \/ identity_accepted c (requests w') outcome
                 | Throw _ => True
                 end) as Haccept.
  { intros w0 log tok answered userData Hw0 Hanswered Hok Hjson.
    destruct (identity_of_cases userData w0)
      as [(id & name & display & Hid & Hname & Hdisplay & ->)|(message & ->)];
      [|by eexists _, _].
    eexists _, _. split; [done|]. right.
    by exists log, tok, answered, userData, id, name, display. }
  unfold validate_response.
  destruct (status response =? 401); [apply Hinvalid|].
  destruct (status response =? 403).
  - unfold bind at 1, await at 1.
    destruct (text response) as [responseText|message]; [|apply Hthrow].
    destruct (csrf_rejection responseText); [|apply Hinvalid].
    unfold bind at 1.
    destruct (getCSRFToken_run c w) as (r & w1 & n & -> & _ & _).
    destruct (truthy r) as [tok|].
    2:{ eexists _, _. split; [done|]. left. by eexists. }
    unfold bind at 1. rewrite fetch_eq.
    destruct (upstream (requests w1) (identity_request c tok))
      as [retryResponse|message] eqn:Hretry; [|apply Hthrow].
    destruct (ok retryResponse) eqn:Hok; cbn [negb].
    2:{ eexists _, _. split; [done|]. left. by eexists. }
    unfold bind at 1, await at 1.
    destruct (json retryResponse) as [userData|message] eqn:Hjson; [|apply Hthrow].
    by apply (Haccept _ (requests w1) tok retryResponse).
  - destruct (ok response) eqn:Hok; cbn [negb]; [|apply Hinvalid].
    unfold bind at 1, await at 1.
    destruct (json response) as [userData|message] eqn:Hjson; [|apply Hthrow].
    unfold bind at 1, await at 1.
    destruct (get_property userData "name") as [name|message]; [|apply Hthrow].
    unfold bind at 1, await at 1.
    destruct (template_literal name); [|apply Hthrow].
    by apply (Haccept _ before csrfToken response).
Qed.

(** The outcome of a validation is an error outcome or a valid one. *)
Lemma validate_verdict_shape c w :
  exists outcome w',
    validateCookieWithRoblox c w = (Normal outcome, w')
    /\ ((exists message, outcome = invalid message) \/ valid outcome = true).
Proof.
  rewrite validateCookieWithRoblox_eq.
  destruct (stored_or_fetched_run c w) as (r0 & w1 & n & Hresolved & _ & _).
  destruct r0 as [csrfToken|].
  - rewrite (validate_try_resolved _ _ _ _ Hresolved).
    destruct (upstream (requests w1) (identity_request c csrfToken))
      as [response|message] eqn:Hanswer.
    + destruct (validate_response_sound c response
                  (logged (identity_request c csrfToken) w1)
                  (requests w1) csrfToken eq_refl Hanswer)
        as (r & w' & -> & Hr).
      destruct r as [outcome|message]; eexists _, _; (split; [done|]).
      * destruct Hr as [Herror|Haccepted]; [by left|right].
        by destruct Haccepted
          as (? & ? & ? & ? & ? & ? & ? & _ & _ & _ & _ & _ & _ & _ & ->).
      * left. by eexists.
    + eexists _, _. split; [done|]. left. by eexists.
  - rewrite (validate_try_unresolved _ _ _ Hresolved).
    eexists _, _. split; [done|]. left. by eexists.
Qed.

(** X12.  The outcome of a validation is one of two shapes.  Either it is
    [valid = false] with an error message and no other property, or it is
    [valid = true], and then the last request of the run is an identity
    request that was answered with a status in 200-299 and a JSON body,
    and [userId], [username] and [displayName] are that body's [id],
    [name] and [displayName].  The validator never reports a session as
    valid on any other evidence. *)
Theorem validate_verdict_grounded c w :
  exists outcome w',
    validateCookieWithRoblox c w = (Normal outcome, w')
    /\ ((valid outcome = false /\ exists message, outcome = invalid message)
        \/ (valid outcome = true /\ identity_accepted c (requests w') outcome)).
Proof.
  assert (forall outcome w',
            identity_accepted c (requests w') outcome ->
            valid outcome = true /\ identity_accepted c (requests w') outcome)
    as Hvalid.
  { intros outcome w' Haccepted. split; [|done].
    by destruct Haccepted as (? & ? & ? & ? & ? & ? & ? & _ & _ & _ & _ & _ & _ & _ & ->). }
  rewrite validateCookieWithRoblox_eq.
  destruct (stored_or_fetched_run c w) as (r0 & w1 & n & Hresolved & _ & _).
  destruct r0 as [csrfToken|].
  - rewrite (validate_try_resolved _ _ _ _ Hresolved).
    destruct (upstream (requests w1) (identity_request c csrfToken))
      as [response|message] eqn:Hanswer.
    + destruct (validate_response_sound c response
                  (logged (identity_request c csrfToken) w1)
                  (requests w1) csrfToken eq_refl Hanswer)
        as (r & w' & -> & Hr).
      destruct r as [outcome|message].
      * exists outcome, w'. split; [done|].
        destruct Hr as [[message ->]|Haccepted]; [left|right; by apply Hvalid].
        split; [done|by eexists].
      * eexists _, _. split; [done|]. left. split; [done|by eexists].
    + eexists _, _. split; [done|]. left. split; [done|by eexists].
  - rewrite (validate_try_unresolved _ _ _ Hresolved).
    eexists _, _. split; [done|]. left. split; [done|by eexists].
Qed.

(** One validation sends at most ten requests: at most four probes, one
    identity request, four more probes and one retry. *)
Lemma validateCookieWithRoblox_length c w :
  exists issued,
    requests (snd (validateCookieWithRoblox c w)) = requests w ++ issued
    /\ (length issued <= 10)%nat.
Proof.
  destruct (validate_try_run c w)
    as (r & w' & n & first & m & retry & Hrun & Hlog & Hfirst & Hretry).
  rewrite validateCookieWithRoblox_eq, Hrun.
  eexists. split.
  { destruct r; exact Hlog. }
  rewrite !length_app, !length_probes. cbn [length csrf_endpoints].
  assert (length first <= 1)%nat by (destruct Hfirst as [->|[? ->]]; cbn; lia).
  assert (length retry <= 1)%nat by (destruct Hretry as [->|[? ->]]; cbn; lia).
  lia.
Qed.

(** *** Session refresher *)

Lemma refresh_request_is_refresh c tok e :
  e ∈ refresh_endpoints -> is_refresh_request (refresh_request c tok e) = true.
Proof.
  intros He. unfold is_refresh_request. apply bool_decide_eq_true.
  cbn [url refresh_request]. by apply list_elem_of_fmap_2.
Qed.

Lemma loop_account_continue c log pre request later budget run :
  pre = request :: later ->
  (length pre <= 6)%nat ->
  loop_account c (log ++ pre) None budget run ->
  loop_account c log (Some request) (6 + budget) run.
Proof.
  intros Hpre Hlength (exit & w' & issued & -> & Hlog & Hbudget & _ & Hexit).
  exists exit, w', (pre ++ issued). split; [done|].
  split; [by rewrite Hlog, app_assoc|]. split; [rewrite length_app; lia|].
  split; [|done]. exists (later ++ issued). by rewrite Hpre.
Qed.

Lemma loop_account_stop c log pre request later budget outcome w' verdict :
  pre = request :: later ->
  (length pre <= 6)%nat ->
  requests w' = log ++ pre ->
  last_answer (requests w') verdict ->
  (outcome = refresh_success c /\ verdict = session_active
   \/ outcome = refresh_failure "Cookie is invalid or expired"
      /\ verdict = (fun code => code =? 401)) ->
  loop_account c log (Some request) (6 + budget) (Normal (Returned outcome), w').
Proof.
  intros Hpre Hlength Hlog Hlast Houtcome. exists (Returned outcome), w', pre.
  split; [done|]. split; [done|]. split; [lia|]. split; [by exists later|].
  destruct Houtcome as [[-> ->]|[-> ->]]; [by left|by right].
Qed.

Lemma loop_account_weaken c log first budget run :
  loop_account c log first budget run -> loop_account c log None budget run.
Proof.
  intros (exit & w' & issued & Hrun & Hlog & Hbudget & _ & Hexit).
  by exists exit, w', issued.
Qed.

(** The loop of the refresher over endpoints of its list. *)
Lemma refresh_loop_account c eps :
  (forall e, e ∈ eps -> e ∈ refresh_endpoints) ->
  forall csrfToken lastResponse w,
    loop_account c (requests w)
      (match eps with
       | e :: _ => Some (refresh_request c csrfToken e)
       | [] => None
       end)
      (6 * length eps)
      (refresh_loop c eps csrfToken lastResponse w).
Proof.
  induction eps as [|e rest IH]; intros Heps csrfToken lastResponse w.
  { exists (Exhausted lastResponse), w, []. split; [done|].
    split; [by rewrite app_nil_r|]. by split. }
  assert (forall tok last w1, loop_account c (requests w1) None (6 * length rest)
                                (refresh_loop c rest tok last w1)) as Hrest.
  { intros tok last w1. eapply loop_account_weaken, IH.
    intros e' He'. apply Heps. by right. }
  assert (forall tok, is_refresh_request (refresh_request c tok e) = true) as He.
  { intros tok. apply refresh_request_is_refresh, Heps. by left. }
  replace (6 * length (e :: rest))%nat with (6 + 6 * length rest)%nat
    by (cbn [length]; lia).
  cbn [refresh_loop]. unfold catching at 1. rewrite fetch_eq.
  set (request := refresh_request c csrfToken e).
  assert (forall tok last,
            loop_account c (requests w) (Some request) (6 + 6 * length rest)
              (refresh_loop c rest tok last (logged request w))) as Hnext.
  { intros tok last. apply (loop_account_continue c _ [request] request []);
      [done|cbn; lia|apply Hrest]. }
  destruct (upstream (requests w) request) as [response|message] eqn:Hanswer;
    [|apply Hnext].
  destruct (session_active (status response)) eqn:Hactive.
  { eapply (loop_account_stop c _ [request] request []);
      [done|cbn; lia|done| |left; done].
    exists (requests w), request, response.
    split; [done|]. split; [apply He|by split]. }
  assert (loop_account c (requests w) (Some request) (6 + 6 * length rest)
            (if status response =? 401
             then ret (Returned (refresh_failure "Cookie is invalid or expired"))
                      (logged request w)
             else refresh_loop c rest csrfToken (Some response) (logged request w)))
    as Hcheck.
  { destruct (status response =? 401) eqn:H401; [|apply Hnext].
    eapply (loop_account_stop c _ [request] request []);
      [done|cbn; lia|done| |right; done].
    exists (requests w), request, response.
    split; [done|]. split; [apply He|by split]. }
  destruct (status response =? 403).
  2:{ destruct (status response =? 401); exact Hcheck. }
  unfold catching at 1, await at 1.
  destruct (text response) as [responseText|message]; [|apply Hnext].
  destruct (csrf_rejection responseText).
  2:{ destruct (status response =? 401); exact Hcheck. }
  unfold catching at 1.
  destruct (getCSRFToken_run c (logged request w)) as (r & w1 & n & -> & Hlog1 & _).
  cbn [requests logged] in Hlog1. rewrite <- app_assoc in Hlog1.
  assert (length (probes c csrf_endpoints n) <= 4)%nat as Hprobes.
  { rewrite length_probes. cbn [length csrf_endpoints]. lia. }
  destruct (truthy r).
  2:{ apply (loop_account_continue c _ ([request] ++ probes c csrf_endpoints n)
               request (probes c csrf_endpoints n)); [done| |].
      - rewrite length_app. cbn [length]. lia.
      - rewrite <- Hlog1. apply Hrest. }
  unfold catching at 1. rewrite fetch_eq.
  set (retry := refresh_request c r e).
  assert (requests (logged retry w1)
          = requests w ++ ([request] ++ probes c csrf_endpoints n ++ [retry]))
    as Hlog2.
  { cbn [requests logged]. by rewrite Hlog1, <- !app_assoc. }
  assert (length ([request] ++ probes c csrf_endpoints n ++ [retry]) <= 6)%nat
    as Hlength.
  { rewrite !length_app. cbn [length]. lia. }
  assert (forall tok last,
            loop_account c (requests w) (Some request) (6 + 6 * length rest)
              (refresh_loop c rest tok last (logged retry w1))) as Hnext'.
  { intros tok last.
    apply (loop_account_continue c _ ([request] ++ probes c csrf_endpoints n ++ [retry])
             request (probes c csrf_endpoints n ++ [retry])); [done|done|].
    rewrite <- Hlog2. apply Hrest. }
  destruct (upstream (requests w1) retry) as [retryResponse|message] eqn:Hretry;
    [|apply Hnext'].
  destruct (session_active (status retryResponse)) eqn:Hactive'; [|apply Hnext'].
  eapply (loop_account_stop c _ ([request] ++ probes c csrf_endpoints n ++ [retry])
            request (probes c csrf_endpoints n ++ [retry]));
    [done|done|exact Hlog2| |left; done].
  exists (requests w1), retry, retryResponse. split; [done|]. split; [apply He|done].
Qed.

Lemma concat_error_differs e :
  concat_error "Cannot refresh invalid cookie: " e <> "Cookie is invalid or expired".
Proof. unfold concat_error. cbv [String.append]. discriminate. Qed.

(** The token phase of the refresher in numbers: at most fourteen
    requests, and either a failure that is not the loop's, or a non-empty
    token. *)
Lemma refresh_csrf_token_account c w :
  exists r w' issued,
    refresh_csrf_token c w = (Normal r, w')
    /\ requests w' = requests w ++ issued
    /\ (length issued <= 14)%nat
    /\ match r with
       | inl outcome =>
           exists message,
             outcome = refresh_failure message
             /\ message <> "Cookie is invalid or expired"
       | inr csrfToken => exists tok, csrfToken = Some tok /\ tok <> ""
       end.
Proof.
  assert (forall (first : RefreshOutcome + option string) w0 issued0,
            requests w0 = requests w ++ issued0 ->
            (length issued0 <= 10)%nat ->
            match first with
            | inl outcome =>
                exists message,
                  outcome = refresh_failure message
                  /\ message <> "Cookie is invalid or expired"
            | inr _ => True
            end ->
            exists r w' issued,
              match first with
              | inl outcome => ret (inl outcome)
              | inr csrfToken =>
                  match truthy csrfToken with
                  | Some _ => ret (inr csrfToken)
                  | None =>
                      let! csrfToken := getCSRFToken c in
                      match truthy csrfToken with
                      | None =>
                          ret (inl (refresh_failure
                                      "Could not obtain CSRF token for refresh"))
                      | Some _ => ret (inr csrfToken)
                      end
                  end
              end w0 = (Normal r, w')
              /\ requests w' = requests w ++ issued
              /\ (length issued <= 14)%nat
              /\ match r with
                 | inl outcome =>
                     exists message,
                       outcome = refresh_failure message
                       /\ message <> "Cookie is invalid or expired"
                 | inr csrfToken => exists tok, csrfToken = Some tok /\ tok <> ""
                 end) as Hsecond.
  { intros first w0 issued0 Hlog0 Hlength0 Hfirst.
    destruct first as [outcome|csrfToken].
    { eexists _, _, issued0. split; [done|]. split; [done|]. split; [lia|done]. }
    destruct (truthy csrfToken) as [tok|] eqn:Htruthy.
    { eexists _, _, issued0. split; [done|]. split; [done|]. split; [lia|].
      exists tok. split; [by apply truthy_Some|by apply truthy_nonempty in Htruthy]. }
    unfold bind.
    destruct (getCSRFToken_run c w0) as (r & w1 & n & -> & Hlog1 & _).
    assert (requests w1 = requests w ++ issued0 ++ probes c csrf_endpoints n)
      as Hlog by (by rewrite Hlog1, Hlog0, app_assoc).
    assert (length (issued0 ++ probes c csrf_endpoints n) <= 14)%nat as Hlength.
    { rewrite length_app, length_probes. cbn [length csrf_endpoints]. lia. }
    destruct (truthy r) as [tok|] eqn:Htruthy'.
    - eexists _, _, _. split; [done|]. split; [exact Hlog|]. split; [done|].
      exists tok. split; [by apply truthy_Some|by apply truthy_nonempty in Htruthy'].
    - eexists _, _, _. split; [done|]. split; [exact Hlog|]. split; [done|].
      by eexists. }
  unfold refresh_csrf_token. unfold bind at 1.
  destruct (getStoredCSRFToken_run c w) as (r0 & w0 & -> & Hlog0).
  unfold bind at 1.
  destruct (truthy r0).
  { apply (Hsecond (inr r0) w0 []); [by rewrite app_nil_r|cbn; lia|done]. }
  unfold bind at 1.
  destruct (validateCookieWithRoblox_length c w0) as (issued1 & Hlog1 & Hlength1).
  destruct (validateCookieWithRoblox_run c w0)
    as (validation & w1 & issued1' & Hrun1 & _).
  rewrite Hrun1 in Hlog1 |- *. cbn [snd] in Hlog1. rewrite Hlog0 in Hlog1.
  destruct (negb (valid validation)).
  { apply (Hsecond (inl _) w1 issued1); [done|done|].
    eexists. split; [done|apply concat_error_differs]. }
  unfold bind at 1.
  destruct (getStoredCSRFToken_run c w1) as (r2 & w2 & -> & Hlog2).
  apply (Hsecond (inr r2) w2 issued1); [by rewrite Hlog2|done|done].
Qed.

Lemma refresh_csrf_token_cached c w data :
  csrfTokens w !! c = Some data ->
  token data <> "" ->
  clock (clock_reads w) - timestamp data < 5 * 60 * 1000 ->
  refresh_csrf_token c w = (Normal (inr (Some (token data))), ticked w).
Proof.
  intros Hdata Htoken Hfresh. unfold refresh_csrf_token. unfold bind at 1.
  rewrite getStoredCSRFToken_eq, Hdata. apply Z.ltb_lt in Hfresh. rewrite Hfresh.
  unfold bind at 1. cbn [truthy].
  destruct (String.eqb_spec (token data) ""); [done|]. unfold ret at 1.
  cbn [truthy]. by destruct (String.eqb_spec (token data) "").
Qed.

(** X13.  A run sends a bounded number of requests, whatever the platform
    answers: a validation at most ten (four probes, the identity request,
    four more probes, the retry), a refresh at most thirty-two (fourteen
    to get a token, then for each of the three endpoints the request,
    four probes and the retry). *)
Theorem runs_send_boundedly c w :
  (exists issued,
     requests (snd (validateCookieWithRoblox c w)) = requests w ++ issued
     /\ (length issued <= 10)%nat)
  /\ (exists issued,
        requests (snd (refreshCookieWithRoblox c w)) = requests w ++ issued
        /\ (length issued <= 32)%nat).
Proof.
  split; [apply validateCookieWithRoblox_length|].
  rewrite refreshCookieWithRoblox_eq. unfold refresh_try, bind at 1.
  destruct (refresh_csrf_token_account c w)
    as (r & w1 & issued1 & -> & Hlog1 & Hlength1 & _).
  destruct r as [outcome|csrfToken].
  { exists issued1. split; [done|lia]. }
  unfold refresh_endpoints_phase, bind.
  destruct (refresh_loop_account c refresh_endpoints ltac:(done) csrfToken None w1)
    as (exit & w2 & issued2 & -> & Hlog2 & Hlength2 & _).
  cbn [length refresh_endpoints] in Hlength2.
  exists (issued1 ++ issued2). split.
  - destruct exit; unfold ret; cbn [snd]; by rewrite Hlog2, Hlog1, app_assoc.
  - rewrite length_app. lia.
Qed.

(** X14.  A refresh that finds a fresh, non-empty token in the cache goes
    straight to the session-extending endpoints: it runs no validation
    and no probe first, and the first request of the run is the one to
    the first endpoint of the list, with the cached token. *)
Theorem refresh_cache_hit c w data :
  csrfTokens w !! c = Some data ->
  token data <> "" ->
  clock (clock_reads w) - timestamp data < 5 * 60 * 1000 ->
  exists outcome w' later,
    refreshCookieWithRoblox c w = (Normal outcome, w')
    /\ requests w'
       = requests w
         ++ refresh_request c (Some (token data))
              {| endpoint_url := "https://economy.roblox.com/v1/user/currency";
                 endpoint_method := GET; endpoint_body := None;
                 description := Some "Economy endpoint" |}
         :: later.
Proof.
  intros Hdata Htoken Hfresh.
  rewrite refreshCookieWithRoblox_eq.
  rewrite (refresh_try_resolved _ _ _ _
             (refresh_csrf_token_cached c w data Hdata Htoken Hfresh)).
  unfold refresh_endpoints_phase, bind.
  destruct (refresh_loop_account c refresh_endpoints ltac:(done)
              (Some (token data)) None (ticked w))
    as (exit & w2 & issued & -> & Hlog & _ & (later & ->) & _).
  cbn [requests ticked] in Hlog.
  destruct exit; by eexists _, w2, later.
Qed.

(** X15.  A refresh of a session that has no usable cached token
    validates the session first, and when that validation fails the
    refresh fails with it: the outcome is [refreshed = false] with the
    error "Cannot refresh invalid cookie: " followed by the validation's
    error, which is always there, and the run ends where the validation
    ended, no request having gone to a session-extending endpoint. *)
Theorem refresh_invalid_session c w stored w0 validation w1 :
  getStoredCSRFToken c w = (Normal stored, w0) ->
  truthy stored = None ->
  validateCookieWithRoblox c w0 = (Normal validation, w1) ->
  valid validation = false ->
  exists message issued,
    error validation = Some message
    /\ refreshCookieWithRoblox c w
       = (Normal {| refreshed := false; cookie := None; warning := None;
                    refresh_error :=
                      Some ("Cannot refresh invalid cookie: " +:+ message) |},
          w1)
    /\ requests w1 = requests w ++ issued
    /\ Forall (fun request => is_refresh_request request = false) issued.
Proof.
  intros Hlookup Hstored Hvalidation Hinvalid.
  destruct (validate_verdict_shape c w0) as (outcome & w1' & Hrun & Hshape).
  rewrite Hvalidation in Hrun. injection Hrun as <- <-.
  destruct Hshape as [[message ->]|Hvalid]; [|congruence].
  destruct (validateCookieWithRoblox_run c w0)
    as (outcome & w1' & issued & Hrun & Hlog & _ & Hissued).
  rewrite Hvalidation in Hrun. injection Hrun as <- <-.
  destruct (getStoredCSRFToken_run c w) as (r & w0' & Hrun0 & Hlog0).
  rewrite Hlookup in Hrun0. injection Hrun0 as <- <-.
  exists message, issued. split; [done|]. split; [|split; [by rewrite Hlog, Hlog0|done]].
  rewrite refreshCookieWithRoblox_eq. unfold refresh_try, refresh_csrf_token.
  rewrite bind_assoc. unfold bind at 1. rewrite Hlookup, bind_assoc, Hstored.
  rewrite bind_assoc. unfold bind at 1. by rewrite Hvalidation.
Qed.

(** X16.  The outcome of a refresh is one of three shapes, and the two
    definite ones rest on an answer of the platform.  Plain success,
    [refreshed = true] with the session identifier and no warning, is
    returned only when the last request of the run went to a
    session-extending endpoint and was answered 200, 201 or 204.  The
    optimistic outcome carries the warning.  A failure has
    [refreshed = false], an error, and neither cookie nor warning, and
    the error "Cookie is invalid or expired" is returned only when the
    last request went to a session-extending endpoint and was answered
    401. *)
Theorem refresh_verdict_grounded c w :
  exists outcome w',
    refreshCookieWithRoblox c w = (Normal outcome, w')
    /\ ((outcome = {| refreshed := true; cookie := Some c; warning := None;
                      refresh_error := None |}
         /\ last_answer (requests w') session_active)
        \/ outcome
           = {| refreshed := true; cookie := Some c;
                warning := Some "Refresh confirmation failed but cookie appears valid";
                refresh_error := None |}
        \/ (exists message,
              outcome = {| refreshed := false; cookie := None; warning := None;
                           refresh_error := Some message |}
              /\ (message = "Cookie is invalid or expired" ->
                  last_answer (requests w') (fun code => code =? 401)))).
Proof.
  rewrite refreshCookieWithRoblox_eq. unfold refresh_try, bind at 1.
  destruct (refresh_csrf_token_account c w)
    as (r & w1 & issued1 & -> & _ & _ & Hr).
  destruct r as [outcome|csrfToken].
  { destruct Hr as (message & -> & Hmessage). eexists _, _. split; [done|].
    right. right. exists message. split; [done|]. by intros ->. }
  unfold refresh_endpoints_phase, bind.
  destruct (refresh_loop_account c refresh_endpoints ltac:(done) csrfToken None w1)
    as (exit & w2 & issued2 & -> & _ & _ & _ & Hexit).
  destruct exit as [outcome|lastResponse].
  - exists outcome, w2. split; [done|].
    destruct Hexit as [[-> Hlast]|[-> Hlast]]; [by left|].
    right. right. eexists. split; [done|]. by intros _.
  - exists (after_loop c lastResponse), w2. split; [done|].
    unfold after_loop. destruct lastResponse as [response|]; [|by right; left].
    destruct (_ || _); [|by right; left].
    right. right. eexists. split; [done|]. discriminate.
Qed.

(** One iteration of the refresher's loop whose request is rejected for
    its token. *)
Lemma refresh_loop_rejected c e rest csrfToken lastResponse w
    response responseText refetched w2 :
  upstream (requests w) (refresh_request c csrfToken e) = Normal response ->
  status response = 403 ->
  text response = Normal responseText ->
  csrf_rejection responseText = true ->
  getCSRFToken c (logged (refresh_request c csrfToken e) w) = (Normal refetched, w2) ->
  refresh_loop c (e :: rest) csrfToken lastResponse w
  = match truthy refetched with
    | None => refresh_loop c rest refetched (Some response) w2
    | Some _ =>
        match upstream (requests w2) (refresh_request c refetched e) with
        | Normal retryResponse =>
            if session_active (status retryResponse)
            then (Normal (Returned (refresh_success c)),
                  logged (refresh_request c refetched e) w2)
            else refresh_loop c rest refetched (Some response)
                   (logged (refresh_request c refetched e) w2)
        | Throw _ =>
            refresh_loop c rest refetched (Some response)
              (logged (refresh_request c refetched e) w2)
        end
    end.
Proof.
  intros Hanswer H403 Htext Hmarker Hrefetch.
  cbn [refresh_loop]. unfold catching at 1. rewrite fetch_eq, Hanswer.
  rewrite H403. cbn [session_active Z.eqb Pos.eqb orb].
  unfold catching at 1, await at 1. rewrite Htext, Hmarker.
  unfold catching at 1. rewrite Hrefetch.
  destruct (truthy refetched); [|done].
  unfold catching at 1. rewrite fetch_eq.
  destruct (upstream (requests w2) (refresh_request c refetched e))
    as [retryResponse|message]; [|done].
  by destruct (session_active (status retryResponse)).
Qed.

(** X17.  After a rejection of its token the refresher goes on with
    whatever the acquirer returned, a new token or [null].  Starting from
    a fresh cached token, if the first endpoint answers 403 with a
    rejection marker and the retry, when there is one, does not confirm
    the session, the request to the second endpoint carries the value the
    acquirer returned: the new token, or a [null] X-CSRF-TOKEN when the
    acquirer found none.  The token the run started with is not used
    again. *)
Theorem refresh_goes_on_with_refetched_token c w data response responseText
    refetched w2 :
  let economy :=
    {| endpoint_url := "https://economy.roblox.com/v1/user/currency";
       endpoint_method := GET; endpoint_body := None;
       description := Some "Economy endpoint" |} in
  let avatar :=
    {| endpoint_url := "https://thumbnails.roblox.com/v1/users/avatar";
       endpoint_method := GET; endpoint_body := None;
       description := Some "Avatar endpoint" |} in
  csrfTokens w !! c = Some data ->
  token data <> "" ->
  clock (clock_reads w) - timestamp data < 5 * 60 * 1000 ->
  upstream (requests w) (refresh_request c (Some (token data)) economy)
  = Normal response ->
  status response = 403 ->
  text response = Normal responseText ->
  csrf_rejection responseText = true ->
  getCSRFToken c (logged (refresh_request c (Some (token data)) economy) (ticked w))
  = (Normal refetched, w2) ->
  (forall retryResponse,
     upstream (requests w2) (refresh_request c refetched economy)
     = Normal retryResponse ->
     session_active (status retryResponse) = false) ->
  exists outcome w' later,
    refreshCookieWithRoblox c w = (Normal outcome, w')
    /\ requests w'
       = requests w2
         ++ match refetched with
            | Some _ => [refresh_request c refetched economy]
            | None => []
            end
         ++ refresh_request c refetched avatar :: later.
Proof.
  intros economy avatar Hdata Htoken Hfresh Hanswer H403 Htext Hmarker
    Hrefetch Hretry.
  rewrite refreshCookieWithRoblox_eq.
  rewrite (refresh_try_resolved _ _ _ _
             (refresh_csrf_token_cached c w data Hdata Htoken Hfresh)).
  unfold refresh_endpoints_phase, bind.
  change refresh_endpoints with (economy :: avatar :: tail (tail refresh_endpoints)).
  rewrite (refresh_loop_rejected c economy _ (Some (token data)) None (ticked w)
             response responseText refetched w2 Hanswer H403 Htext Hmarker Hrefetch).
  assert (forall w1,
            exists exit w' later,
              refresh_loop c (avatar :: tail (tail refresh_endpoints)) refetched
                (Some response) w1 = (Normal exit, w')
              /\ requests w'
                 = requests w1 ++ refresh_request c refetched avatar :: later)
    as Hnext.
  { intros w1.
    destruct (refresh_loop_account c (avatar :: tail (tail refresh_endpoints))
                ltac:(intros e He; by right) refetched (Some response) w1)
      as (exit & w' & issued & Hrun & Hlog & _ & (later & ->) & _).
    by exists exit, w', later. }
  destruct (getCSRFToken_run c
              (logged (refresh_request c (Some (token data)) economy) (ticked w)))
    as (r & w2' & n & Hrun & _ & Htruthy).
  rewrite Hrefetch in Hrun. injection Hrun as <- <-.
  destruct refetched as [newToken|].
  - rewrite Htruthy.
    destruct (upstream (requests w2) (refresh_request c (Some newToken) economy))
      as [retryResponse|message] eqn:Hretried.
    + rewrite (Hretry retryResponse eq_refl).
      destruct (Hnext (logged (refresh_request c (Some newToken) economy) w2))
        as (exit & w' & later & -> & Hlog).
      cbn [requests logged] in Hlog. rewrite <- app_assoc in Hlog.
      destruct exit; by eexists _, w', later.
    + destruct (Hnext (logged (refresh_request c (Some newToken) economy) w2))
        as (exit & w' & later & -> & Hlog).
      cbn [requests logged] in Hlog. rewrite <- app_assoc in Hlog.
      destruct exit; by eexists _, w', later.
  - cbn [truthy]. destruct (Hnext w2) as (exit & w' & later & -> & Hlog).
    destruct exit; by eexists _, w', later.
Qed.

(** *** What an exhausted run of the refresher goes by *)

Lemma tried_app before later address :
  tried (before ++ later) address = tried before address || tried later address.
Proof. apply existsb_app. Qed.

Lemma first_attempt_answers_app log before l1 l2 :
  first_attempt_answers log before (l1 ++ l2)
  = first_attempt_answers log before l1
    ++ first_attempt_answers log (before ++ l1) l2.
Proof.
  revert before. induction l1 as [|r l1 IH]; intros before.
  - cbn. by rewrite app_nil_r.
  - cbn [app first_attempt_answers]. rewrite IH, <- !app_assoc. done.
Qed.

(** Requests to addresses tried before, and requests that do not go to a
    session-extending endpoint, add no first attempt. *)
Lemma first_attempt_answers_none log address l : forall before,
  tried before address = true ->
  Forall (fun r => is_refresh_request r = false \/ url r = address) l ->
  first_attempt_answers log before l = [].
Proof.
  induction l as [|r l IH]; intros before Htried Hl; [done|].
  apply Forall_cons in Hl as [Hr Hl]. cbn [first_attempt_answers].
  rewrite IH; [|by rewrite tried_app, Htried|done].
  destruct Hr as [-> | ->]; [done|]. by rewrite Htried, andb_false_r.
Qed.

Lemma first_attempt_answers_other log before l :
  Forall (fun r => is_refresh_request r = false) l ->
  first_attempt_answers log before l = [].
Proof.
  intros Hl. revert before. induction Hl as [|r l Hr _ IH]; intros before; [done|].
  cbn [first_attempt_answers]. by rewrite Hr, IH.
Qed.

(** One iteration of the loop: the first attempt, then requests that are
    probes of the acquirer or go to the same address again. *)
Lemma first_attempt_answers_iteration log before request later :
  is_refresh_request request = true ->
  tried before (url request) = false ->
  Forall (fun r => is_refresh_request r = false \/ url r = url request) later ->
  first_attempt_answers log before (request :: later)
  = match upstream (log ++ before) request with
    | Normal response => [response]
    | Throw _ => []
    end.
Proof.
  intros Hrefresh Hnew Hlater. cbn [first_attempt_answers].
  rewrite Hrefresh, Hnew. cbn [negb andb].
  rewrite (first_attempt_answers_none log (url request)); [by rewrite app_nil_r| |done].
  rewrite tried_app. cbn. by rewrite String.eqb_refl, !orb_true_r.
Qed.

Lemma tried_other l e :
  Forall (fun r => is_refresh_request r = false) l ->
  e ∈ refresh_endpoints ->
  tried l (endpoint_url e) = false.
Proof.
  intros Hl He. induction Hl as [|r l Hr _ IH]; [done|].
  cbn. fold (tried l (endpoint_url e)). rewrite IH, orb_false_r.
  destruct (String.eqb_spec (url r) (endpoint_url e)) as [Heq|]; [|done].
  exfalso. unfold is_refresh_request in Hr. apply bool_decide_eq_false in Hr.
  apply Hr. rewrite Heq. by apply list_elem_of_In, in_map, list_elem_of_In.
Qed.

Lemma loop_recorded_continue c log before iteration recorded between run :
  between = match last (first_attempt_answers log before iteration) with
            | Some response => Some response
            | None => recorded
            end ->
  Forall (fun response => status response <> 401)
    (first_attempt_answers log before iteration) ->
  loop_recorded c log (before ++ iteration) between run ->
  loop_recorded c log before recorded run.
Proof.
  intros Hbetween Hiteration (exit & w' & issued & -> & Hlog & Hexit).
  exists exit, w', (iteration ++ issued). split; [done|].
  split; [by rewrite Hlog, <- !app_assoc|].
  rewrite first_attempt_answers_app.
  destruct exit as [outcome|lastResponse].
  - destruct Hexit as [[-> (earlier & request & -> & Hconfirms)]|[-> H401]].
    + left. split; [done|]. exists (iteration ++ earlier), request.
      split; [by rewrite app_assoc|]. by rewrite <- !app_assoc in Hconfirms.
    + right. split; [done|]. apply Exists_app. by right.
  - destruct Hexit as [-> Hrest]. split; [|by apply Forall_app_2].
    rewrite last_app, Hbetween.
    by destruct (last (first_attempt_answers log (before ++ iteration) issued)).
Qed.

(** The loop of the refresher, on any list of its endpoints without
    repetition, none of which the run has tried. *)
Lemma refresh_loop_recorded c log eps :
  NoDup (map endpoint_url eps) ->
  (forall e, e ∈ eps -> e ∈ refresh_endpoints) ->
  forall before csrfToken lastResponse w,
    requests w = log ++ before ->
    (forall e, e ∈ eps -> tried before (endpoint_url e) = false) ->
    loop_recorded c log before lastResponse
      (refresh_loop c eps csrfToken lastResponse w).
Proof.
  induction eps as [|e rest IH];
    intros Hnodup Heps before csrfToken lastResponse w Hlog Hnew.
  { exists (Exhausted lastResponse), w, []. split; [done|].
    split; [by rewrite app_nil_r|]. by split. }
  cbn [map] in Hnodup. apply NoDup_cons in Hnodup as [Hfresh Hnodup].
  assert (forall tok, is_refresh_request (refresh_request c tok e) = true) as He.
  { intros tok. apply refresh_request_is_refresh, Heps. by left. }
  assert (forall tok e', e' ∈ rest ->
            tried [refresh_request c tok e] (endpoint_url e') = false) as Hapart.
  { intros tok e' He'. cbn. rewrite orb_false_r.
    destruct (String.eqb_spec (endpoint_url e) (endpoint_url e')) as [Heq|]; [|done].
    exfalso. apply Hfresh. rewrite Heq.
    by apply list_elem_of_In, in_map, list_elem_of_In. }
  assert (forall iteration tok recorded w1,
            requests w1 = log ++ before ++ iteration ->
            (forall e', e' ∈ rest -> tried iteration (endpoint_url e') = false) ->
            loop_recorded c log (before ++ iteration) recorded
              (refresh_loop c rest tok recorded w1)) as Hnext.
  { intros iteration tok recorded w1 Hlog1 Hiteration.
    apply IH; [done| |by rewrite Hlog1, app_assoc|].
    - intros e' He'. apply Heps. by right.
    - intros e' He'. rewrite tried_app, Hiteration by done.
      rewrite Hnew; [done|by right]. }
  cbn [refresh_loop]. unfold catching at 1. rewrite fetch_eq.
  set (request := refresh_request c csrfToken e).
  assert (forall later,
            Forall (fun r => is_refresh_request r = false \/ url r = url request)
              later ->
            first_attempt_answers log before (request :: later)
            = match upstream (requests w) request with
              | Normal response => [response]
              | Throw _ => []
              end) as Hrecorded.
  { intros later Hlater. rewrite Hlog.
    apply first_attempt_answers_iteration; [apply He| |done].
    apply Hnew. by left. }
  assert (forall n, Forall (fun r => is_refresh_request r = false \/ url r = url request)
                      (probes c csrf_endpoints n)) as Hprobes.
  { intros n. eapply Forall_impl; [apply probes_csrf_not_refresh|]. by left. }
  assert (forall n e', e' ∈ rest ->
            tried (request :: probes c csrf_endpoints n) (endpoint_url e') = false)
    as Hprobed.
  { intros n e' He'.
    change (request :: probes c csrf_endpoints n)
      with ([request] ++ probes c csrf_endpoints n).
    rewrite tried_app, (Hapart csrfToken e' He' : tried [request] _ = false).
    apply tried_other; [apply probes_csrf_not_refresh|]. apply Heps. by right. }
  destruct (upstream (requests w) request) as [response|message] eqn:Hanswer.
  2:{ apply (loop_recorded_continue c log before [request] _ lastResponse).
      - by rewrite Hrecorded.
      - by rewrite Hrecorded.
      - apply Hnext; [by cbn; rewrite Hlog, <- app_assoc|apply Hapart]. }
  destruct (session_active (status response)) eqn:Hactive.
  { eexists _, _, [request]. split; [done|].
    split; [by cbn; rewrite Hlog, <- app_assoc|]. left. split; [done|].
    exists [], request. split; [done|].
    unfold confirms_session. rewrite app_nil_r, <- Hlog, Hanswer, Hactive.
    by rewrite (He csrfToken : is_refresh_request request = true). }
  assert (status response <> 401 ->
          forall tok w1 later,
            requests w1 = log ++ before ++ request :: later ->
            Forall (fun r => is_refresh_request r = false \/ url r = url request)
              later ->
            (forall e', e' ∈ rest ->
               tried (request :: later) (endpoint_url e') = false) ->
            loop_recorded c log before lastResponse
              (refresh_loop c rest tok (Some response) w1)) as Hcontinue.
  { intros H401 tok w1 later Hlog1 Hlater Hnew1.
    apply (loop_recorded_continue c log before (request :: later) _ (Some response)).
    - by rewrite Hrecorded.
    - rewrite Hrecorded by done. by repeat constructor.
    - by apply Hnext. }
  assert (requests (logged request w) = log ++ before ++ [request]) as Hlogged.
  { cbn. by rewrite Hlog, <- app_assoc. }
  assert (loop_recorded c log before lastResponse
            (if status response =? 401
             then ret (Returned (refresh_failure "Cookie is invalid or expired"))
                      (logged request w)
             else refresh_loop c rest csrfToken (Some response) (logged request w)))
    as Hcheck.
  { destruct (Z.eqb_spec (status response) 401) as [H401|H401].
    - eexists _, _, [request]. split; [done|]. split; [exact Hlogged|].
      right. split; [done|]. rewrite Hrecorded by done. by constructor.
    - by apply (Hcontinue H401 csrfToken _ []); [|constructor|apply Hapart]. }
  destruct (Z.eqb_spec (status response) 403) as [H403|H403].
  2:{ destruct (status response =? 401); exact Hcheck. }
  assert (status response <> 401) as H401 by lia.
  unfold catching at 1, await at 1.
  destruct (text response) as [responseText|message].
  2:{ by apply (Hcontinue H401 csrfToken _ []); [|constructor|apply Hapart]. }
  destruct (csrf_rejection responseText).
  2:{ destruct (status response =? 401); exact Hcheck. }
  unfold catching at 1.
  destruct (getCSRFToken_run c (logged request w)) as (r & w1 & n & -> & Hlog1 & _).
  rewrite Hlogged in Hlog1.
  assert (requests w1 = log ++ before ++ request :: probes c csrf_endpoints n)
    as Hlog1' by (by rewrite Hlog1, <- !app_assoc).
  destruct (truthy r).
  2:{ apply (Hcontinue H401 r _ (probes c csrf_endpoints n));
        [exact Hlog1'|apply Hprobes|apply Hprobed]. }
  unfold catching at 1. rewrite fetch_eq.
  set (retry := refresh_request c r e).
  assert (requests (logged retry w1)
          = log ++ before ++ request :: (probes c csrf_endpoints n ++ [retry]))
    as Hlog2.
  { cbn [requests logged]. rewrite Hlog1'. by rewrite <- !app_assoc. }
  assert (Forall (fun r => is_refresh_request r = false \/ url r = url request)
            (probes c csrf_endpoints n ++ [retry])) as Hretried.
  { apply Forall_app_2; [apply Hprobes|]. constructor; [by right|constructor]. }
  assert (forall e', e' ∈ rest ->
            tried (request :: (probes c csrf_endpoints n ++ [retry]))
              (endpoint_url e') = false) as Hnew2.
  { intros e' He'.
    change (request :: (probes c csrf_endpoints n ++ [retry]))
      with ((request :: probes c csrf_endpoints n) ++ [retry]).
    rewrite tried_app, Hprobed by done. by apply Hapart. }
  destruct (upstream (requests w1) retry) as [retryResponse|message] eqn:Hretry.
  2:{ apply (Hcontinue H401 r _ (probes c csrf_endpoints n ++ [retry]));
        [exact Hlog2|exact Hretried|exact Hnew2]. }
  destruct (session_active (status retryResponse)) eqn:Hactive'.
  2:{ apply (Hcontinue H401 r _ (probes c csrf_endpoints n ++ [retry]));
        [exact Hlog2|exact Hretried|exact Hnew2]. }
  eexists _, _, _. split; [done|]. split; [exact Hlog2|]. left. split; [done|].
  exists (request :: probes c csrf_endpoints n), retry. split; [done|].
  unfold confirms_session. rewrite <- Hlog1', Hretry, Hactive'.
  by rewrite (He r : is_refresh_request retry = true).
Qed.

Lemma unconfirmed_last log l r :
  unconfirmed log (l ++ [r]) -> confirms_session (log ++ l) r = false.
Proof.
  intros H.
  rewrite <- (take_app_length l [r]).
  apply unconfirmed_lookup; [done|]. by rewrite list_lookup_middle.
Qed.

Lemma after_loop_rule c lastResponse :
  after_loop c lastResponse = exhausted_outcome_rule c lastResponse.
Proof.
  unfold after_loop, exhausted_outcome_rule.
  destruct lastResponse as [response|]; [|done].
  destruct (decide (status response = 401 \/ status response = 403)) as [[H|H]|H].
  - by rewrite H.
  - by rewrite H.
  - destruct (Z.eqb_spec (status response) 403); [tauto|].
    destruct (Z.eqb_spec (status response) 401); [tauto|]. done.
Qed.

(** On a platform that answers the session-extending endpoints
    ambiguously, no request confirms the session and no first attempt is
    answered 401 or 403. *)
Lemma ambiguous_unconfirmed :
  (forall log request,
     is_refresh_request request = true -> ambiguous (upstream log request)) ->
  forall issued log, unconfirmed log issued.
Proof.
  intros Hambiguous. induction issued as [|r issued IH]; intros log; [done|].
  split; [|apply IH]. unfold confirms_session.
  destruct (is_refresh_request r) eqn:Hr; [|done].
  specialize (Hambiguous log r Hr).
  destruct (upstream log r) as [response|message]; [|done].
  by destruct Hambiguous as (-> & _).
Qed.

Lemma ambiguous_recorded :
  (forall log request,
     is_refresh_request request = true -> ambiguous (upstream log request)) ->
  forall issued log before,
    Forall (fun response => status response <> 401 /\ status response <> 403)
      (first_attempt_answers log before issued).
Proof.
  intros Hambiguous. induction issued as [|r issued IH]; intros log before.
  { constructor. }
  cbn [first_attempt_answers]. apply Forall_app_2; [|apply IH].
  destruct (is_refresh_request r) eqn:Hr; [|constructor].
  destruct (negb (tried before (url r))); [|constructor]. cbn [andb].
  specialize (Hambiguous (log ++ before) r Hr).
  destruct (upstream (log ++ before) r) as [response|message]; [|constructor].
  destruct Hambiguous as (_ & H401 & H403). by repeat constructor.
Qed.

(** C5.  Every run of the refresher returns an outcome, and when the run
    went through the whole list of endpoints without any attempt
    succeeding (it reached the endpoints, no answer confirmed the
    session, no first attempt was answered 401), the outcome goes by the
    last answer to a first attempt: a status of 401 or 403 gives
    [refreshed = false] with the authentication-errors message; any other
    status, or no answered first attempt at all, gives the optimistic
    outcome with [refreshed = true], the session identifier as [cookie],
    and a warning.  The answer to a retry is not looked at.  When the
    code's loop runs out of endpoints the run is such a run, and the
    variable [lastResponse] holds that last answer to a first attempt.
    In particular, on a platform that answers every request to the
    refresher's endpoints ambiguously (500 each time, say), a run that
    reaches the endpoints ends with the optimistic outcome. *)
Theorem refresh_exhausted_outcome c w :
  exists outcome w' issued,
    refreshCookieWithRoblox c w = (Normal outcome, w')
    /\ requests w' = requests w ++ issued
    /\ (exhausted_run (requests w) issued ->
        outcome = exhausted_outcome_rule c
                    (last (first_attempt_answers (requests w) [] issued)))
    /\ (forall csrfToken w1 lastResponse w2,
          refresh_csrf_token c w = (Normal (inr csrfToken), w1) ->
          refresh_loop c refresh_endpoints csrfToken None w1
          = (Normal (Exhausted lastResponse), w2) ->
          exhausted_run (requests w) issued
          /\ lastResponse = last (first_attempt_answers (requests w) [] issued))
    /\ ((forall log request,
           is_refresh_request request = true -> ambiguous (upstream log request)) ->
        Exists (fun request => is_refresh_request request = true) issued ->
        outcome = {| refreshed := true; cookie := Some c;
                     warning :=
                       Some "Refresh confirmation failed but cookie appears valid";
                     refresh_error := None |}).
Proof.
  assert (forall outcome issued,
            (exhausted_run (requests w) issued ->
             outcome = exhausted_outcome_rule c
                         (last (first_attempt_answers (requests w) [] issued))) ->
            (forall log request,
               is_refresh_request request = true ->
               ambiguous (upstream log request)) ->
            Exists (fun request => is_refresh_request request = true) issued ->
            outcome = refresh_unconfirmed c) as Hquiet.
  { intros outcome issued Hrule Hambiguous Hreached.
    pose proof (ambiguous_recorded Hambiguous issued (requests w) []) as Hrecorded.
    rewrite Hrule.
    - unfold exhausted_outcome_rule.
      destruct (last (first_attempt_answers (requests w) [] issued))
        as [response|] eqn:Hlast; [|done].
      apply last_Some_elem_of in Hlast.
      apply (proj1 (Forall_forall _ _) Hrecorded) in Hlast.
      destruct (decide (status response = 401 \/ status response = 403)); [|done].
      tauto.
    - split; [done|]. split; [by apply ambiguous_unconfirmed|].
      eapply Forall_impl; [exact Hrecorded|]. by intros response [H401 _]. }
  rewrite refreshCookieWithRoblox_eq. unfold refresh_try, bind at 1.
  destruct (refresh_csrf_token_run c w) as (r & w1 & issued1 & Hresolved & Hlog1 & Hissued1).
  rewrite Hresolved.
  destruct r as [outcome|csrfToken].
  { exists outcome, w1, issued1. split; [done|]. split; [done|].
    assert (~ Exists (fun request => is_refresh_request request = true) issued1)
      as Hnone.
    { intros Hsome. apply Exists_exists in Hsome as (request & Hin & Hrefresh).
      apply (proj1 (Forall_forall _ _) Hissued1) in Hin. congruence. }
    split; [by intros [Hsome _]|]. split; [|by intros _ Hsome].
    intros csrfToken w1' lastResponse w2 [=]. }
  unfold refresh_endpoints_phase, bind.
  assert (NoDup (map endpoint_url refresh_endpoints)) as Hnodup.
  { apply (bool_decide_unpack _). by vm_compute. }
  destruct (refresh_loop_recorded c (requests w) refresh_endpoints Hnodup
              ltac:(done) issued1 csrfToken None w1 Hlog1
              (fun e He => tried_other issued1 e Hissued1 He))
    as (exit & w2 & issued2 & Hloop & Hlog2 & Hexit).
  rewrite Hloop.
  assert (first_attempt_answers (requests w) [] (issued1 ++ issued2)
          = first_attempt_answers (requests w) issued1 issued2) as Hrecorded.
  { by rewrite first_attempt_answers_app, first_attempt_answers_other. }
  destruct exit as [outcome|lastResponse].
  - exists outcome, w2, (issued1 ++ issued2). split; [done|]. split; [done|].
    assert (~ exhausted_run (requests w) (issued1 ++ issued2)) as Hnot.
    { intros (_ & Hunconfirmed & H401). rewrite Hrecorded in H401.
      destruct Hexit as [[_ (earlier & request & -> & Hconfirms)]|[_ Hsome]].
      - rewrite app_assoc in Hunconfirmed. apply unconfirmed_last in Hunconfirmed.
        congruence.
      - apply Exists_exists in Hsome as (response & Hin & Hstatus).
        by apply (proj1 (Forall_forall _ _) H401) in Hin. }
    split; [by intros Hexhausted|].
    split; [|by apply Hquiet].
    intros csrfToken' w1' lastResponse w2' Hresolved' Hloop'.
    injection Hresolved' as <- <-.
    rewrite Hloop in Hloop'. discriminate Hloop'.
  - exists (after_loop c lastResponse), w2, (issued1 ++ issued2).
    split; [done|]. split; [done|].
    destruct Hexit as [Hlast H401].
    assert (lastResponse
            = last (first_attempt_answers (requests w) [] (issued1 ++ issued2)))
      as Hdecisive.
    { rewrite Hrecorded, Hlast.
      by destruct (last (first_attempt_answers (requests w) issued1 issued2)). }
    assert (outcome_rule :
              after_loop c lastResponse
              = exhausted_outcome_rule c
                  (last (first_attempt_answers (requests w) [] (issued1 ++ issued2)))).
    { by rewrite <- Hdecisive, after_loop_rule. }
    split; [by intros _|]. split; [|by apply Hquiet].
    intros csrfToken' w1' lastResponse' w2' Hresolved' Hloop'.
    injection Hresolved' as <- <-.
    rewrite Hloop in Hloop'. injection Hloop' as <- <-.
    split; [|done]. split; [|split].
    + apply Exists_app. right.
      destruct (refresh_loop_account c refresh_endpoints ltac:(done)
                  csrfToken None w1)
        as (exit' & w2' & issued2' & Hloop' & Hlog2' & _ & (later & ->) & _).
      rewrite Hloop in Hloop'. injection Hloop' as <- <-.
      rewrite Hlog2 in Hlog2'. rewrite Hlog1, <- app_assoc in Hlog2'.
      apply app_inv_head in Hlog2'. apply app_inv_head in Hlog2'. subst issued2.
      constructor. by apply refresh_request_is_refresh; left.
    + apply unconfirmed_app; [by apply unconfirmed_not_refresh|].
      destruct (refresh_loop_outcome c refresh_endpoints csrfToken None w1)
        as (exit' & w2' & issued2' & Hloop' & Hlog2' & Hexit').
      rewrite Hloop in Hloop'. injection Hloop' as <- <-.
      rewrite Hlog2 in Hlog2'. rewrite Hlog1, <- app_assoc in Hlog2'.
      apply app_inv_head in Hlog2'. apply app_inv_head in Hlog2'. subst issued2'.
      rewrite <- Hlog1. apply Hexit'.
    + by rewrite Hrecorded.
Qed.


End Core.

(** ** The theorems at work on the scenarios *)

(** C2 on a cached token: one second after the store the lookup returns
    it; five minutes later the lookup returns [null] and evicts it. *)
Lemma lookup_fresh_or_evict_witness :
  fst (getStoredCSRFToken seconds_clock "S1" cached_world) = Normal (Some "T1")
  /\ fst (getStoredCSRFToken late_clock "S1" cached_world) = Normal None
  /\ csrfTokens (snd (getStoredCSRFToken late_clock "S1" cached_world)) = ∅.
Proof.
  split.
  - apply (proj1 (lookup_fresh_or_evict seconds_clock "S1" cached_world) "T1").
    exists {| token := "T1"; timestamp := 0 |}.
    split; [reflexivity|]. split; reflexivity.
  - destruct (proj1 (proj2 (proj2 (lookup_fresh_or_evict late_clock "S1" cached_world)))
                {| token := "T1"; timestamp := 0 |}) as [Hnone Hevicted].
    + reflexivity.
    + vm_compute. discriminate.
    + split; [exact Hnone|]. rewrite Hevicted. reflexivity.
Defined.

(** C3 on the scenario of the specification: the first probe throws, the
    second leaks T1; two requests are issued, T1 is returned, and the
    lookup one second later returns T1. *)
Lemma acquire_first_offer_witness :
  exists w',
    getCSRFToken (scripted second_probe_leaks) seconds_clock "S1" new_world
    = (Normal (Some "T1"), w')
    /\ requests w' = probes "S1" csrf_endpoints 2
    /\ length (requests w') = 2%nat
    /\ csrfTokens w' !! "S1" = Some {| token := "T1"; timestamp := 1000 |}
    /\ fst (getStoredCSRFToken seconds_clock "S1" w') = Normal (Some "T1").
Proof.
  destruct (acquire_first_offer (scripted second_probe_leaks) seconds_clock
              "S1" new_world 1 "T1")
    as (w' & Hrun & Hlog & Hlength & Hstored & Hlookup).
  - reflexivity.
  - intros [|i] Hi; [reflexivity|]. exfalso. lia.
  - exists w'. split; [exact Hrun|]. split; [exact Hlog|].
    split; [exact Hlength|]. split; [exact Hstored|].
    apply Hlookup.
    assert (clock_reads w' = 1%nat) as ->.
    { change (clock_reads (snd (Normal (Some "T1"), w')) = 1%nat).
      rewrite <- Hrun. reflexivity. }
    reflexivity.
Defined.

(** C3 as stated fails when the header is there with an empty value: the
    acquirer does not stop at that probe and returns [null]. *)
Lemma empty_header_is_not_a_token :
  ~ stops_at_first_header (scripted empty_header_first) seconds_clock
      "S1" new_world 0 "".
Proof.
  intros Hclaim. destruct Hclaim as (w' & Hrun & _).
  - reflexivity.
  - intros i Hi. exfalso. lia.
  - vm_compute in Hrun. discriminate Hrun.
Qed.

(** C9 on a platform that answers 500 without the header: the loop goes
    on with the second endpoint. *)
Lemma acquire_continues_without_header_witness :
  getCSRFToken_loop (scripted []) seconds_clock "S1" csrf_endpoints new_world
  = getCSRFToken_loop (scripted []) seconds_clock "S1" (tail csrf_endpoints)
      (logged (probe_request "S1"
                 {| endpoint_url := "https://auth.roblox.com/v2/login";
                    endpoint_method := POST; endpoint_body := None;
                    description := None |})
              new_world).
Proof.
  apply (proj1 (acquire_continues_without_header (scripted []) seconds_clock
                  "S1" new_world)
           _ _ (plain_response 500 None "")); reflexivity.
Defined.

(** C1 on a platform that rejects every token: the second rejection ends
    the validation with [valid = false], two identity requests sent. *)
Lemma validate_retries_once_witness :
  exists outcome w',
    validateCookieWithRoblox (scripted keeps_rejecting) seconds_clock "S1" new_world
    = (Normal outcome, w')
    /\ valid outcome = false
    /\ identity_requests (requests w') = 2%nat.
Proof.
  destruct (proj2 (validate_retries_once (scripted keeps_rejecting) seconds_clock
                     "S1" new_world)
              "T1"
              (cached "S1" "T1" 1000
                 (logged (probe_request "S1"
                            {| endpoint_url := "https://auth.roblox.com/v2/login";
                               endpoint_method := POST; endpoint_body := None;
                               description := None |})
                         new_world))
              (plain_response 403 None "Token Validation Failed")
              "Token Validation Failed"
              (Some "T2")
              (cached "S1" "T2" 2000
                 (logged (probe_request "S1"
                            {| endpoint_url := "https://auth.roblox.com/v2/login";
                               endpoint_method := POST; endpoint_body := None;
                               description := None |})
                    (logged (identity_request "S1" "T1")
                       (cached "S1" "T1" 1000
                          (logged (probe_request "S1"
                                     {| endpoint_url := "https://auth.roblox.com/v2/login";
                                        endpoint_method := POST; endpoint_body := None;
                                        description := None |})
                                  new_world))))))
    as (outcome & issued & Hrun & Hlog & Hcount & Hfailed);
    try reflexivity.
  eexists outcome, _. split; [exact Hrun|]. split.
  - apply (Hfailed (plain_response 403 None "Token Validation Failed")); reflexivity.
  - rewrite Hlog. exact Hcount.
Defined.

(** C4 on an expired session. *)
Lemma validate_401_is_terminal_witness :
  validateCookieWithRoblox (scripted session_expired) seconds_clock "S1" new_world
  = (Normal {| valid := false; userId := None; username := None;
               displayName := None; error := Some "Cookie is invalid or expired" |},
     {| csrfTokens := {[ "S1" := {| token := "T1"; timestamp := 1000 |} ]};
        requests :=
          [ probe_request "S1"
              {| endpoint_url := "https://auth.roblox.com/v2/login";
                 endpoint_method := POST; endpoint_body := None;
                 description := None |};
            identity_request "S1" "T1" ];
        clock_reads := 1 |}).
Proof.
  apply (validate_401_is_terminal (scripted session_expired) seconds_clock
           "S1" new_world "T1"
           (cached "S1" "T1" 1000
              (logged (probe_request "S1"
                         {| endpoint_url := "https://auth.roblox.com/v2/login";
                            endpoint_method := POST; endpoint_body := None;
                            description := None |})
                      new_world))
           (plain_response 401 None ""));
    reflexivity.
Defined.

(** C5 on two platforms.  One answers the first two endpoints 500,
    rejects the token at the third and answers the retry 500: the run goes
    through the whole list, the last answer to a first attempt is the 403,
    and the outcome is the authentication-errors failure.  The other
    answers every endpoint 500: the outcome is the optimistic one. *)
Lemma refresh_exhausted_outcome_witness :
  fst (refreshCookieWithRoblox (scripted retry_unanswered) seconds_clock
         "S1" cached_world)
  = Normal {| refreshed := false; cookie := None; warning := None;
              refresh_error :=
                Some "Cookie could not be refreshed due to authentication errors" |}
  /\ fst (refreshCookieWithRoblox (scripted []) seconds_clock "S1" cached_world)
     = Normal {| refreshed := true; cookie := Some "S1";
                 warning :=
                   Some "Refresh confirmation failed but cookie appears valid";
                 refresh_error := None |}.
Proof.
  split.
  - destruct (refresh_exhausted_outcome (scripted retry_unanswered) seconds_clock
                "S1" cached_world)
      as (outcome & w' & issued & Hrun & Hlog & Hrule & _).
    pose proof (f_equal snd Hrun) as Hw. cbn [snd] in Hw. subst w'.
    cbn [requests cached_world app] in Hlog. subst issued.
    rewrite Hrun. cbn [fst]. f_equal. rewrite Hrule; [vm_compute; reflexivity|].
    split; [|split].
    + vm_compute. apply Exists_cons_hd. reflexivity.
    + vm_compute. repeat split.
    + vm_compute. repeat constructor; discriminate.
  - destruct (refresh_exhausted_outcome (scripted []) seconds_clock
                "S1" cached_world)
      as (outcome & w' & issued & Hrun & Hlog & Hrule & _).
    pose proof (f_equal snd Hrun) as Hw. cbn [snd] in Hw. subst w'.
    cbn [requests cached_world app] in Hlog. subst issued.
    rewrite Hrun. cbn [fst]. f_equal. rewrite Hrule; [vm_compute; reflexivity|].
    split; [|split].
    + vm_compute. apply Exists_cons_hd. reflexivity.
    + vm_compute. repeat split.
    + vm_compute. repeat constructor; discriminate.
Defined.

(** C5 as stated, with the last response observed, fails on that
    platform: the last answer to a request to a session-extending
    endpoint is the 500 of the retry, for which the rule gives the
    optimistic outcome, and the refresher reports authentication errors. *)
Lemma retry_answer_is_not_looked_at :
  ~ decided_by_last_answer (scripted retry_unanswered) seconds_clock
      "S1" cached_world.
Proof.
  intros Hclaim.
  pose (run := refreshCookieWithRoblox (scripted retry_unanswered) seconds_clock
                 "S1" cached_world).
  assert (run = (Normal (refresh_failure
                           "Cookie could not be refreshed due to authentication errors"),
                 snd run)) as Hrun by (vm_compute; reflexivity).
  specialize (Hclaim _ (snd run) (requests (snd run)) Hrun eq_refl).
  assert (exhausted_run (scripted retry_unanswered) [] (requests (snd run)))
    as Hexhausted.
  { split; [|split].
    - vm_compute. apply Exists_cons_hd. reflexivity.
    - vm_compute. repeat split.
    - vm_compute. repeat constructor; discriminate. }
  apply Hclaim in Hexhausted. vm_compute in Hexhausted. discriminate Hexhausted.
Qed.

(** C10 on a platform that answers every endpoint 403 without a marker:
    the loop runs out with a last status of 403, not 401, and the outcome
    is the authentication-errors failure. *)
Lemma refresh_last_response_not_401_witness :
  exists lastResponse,
    fst (refresh_loop (scripted always_forbidden) seconds_clock "S1"
           refresh_endpoints (Some "T1") None new_world)
    = Normal (Exhausted (Some lastResponse))
    /\ status lastResponse <> 401
    /\ status lastResponse = 403
    /\ refreshed (after_loop "S1" (Some lastResponse)) = false.
Proof.
  exists (plain_response 403 None "Forbidden").
  split; [reflexivity|].
  destruct (refresh_last_response_not_401 (scripted always_forbidden) seconds_clock
              "S1" (Some "T1") new_world
              (Some (plain_response 403 None "Forbidden"))
              (snd (refresh_loop (scripted always_forbidden) seconds_clock "S1"
                      refresh_endpoints (Some "T1") None new_world)))
    as (Hnot401 & _ & Hsame).
  - reflexivity.
  - split; [by apply Hnot401|]. split; [reflexivity|]. by rewrite Hsame.
Defined.

(** C6 on a platform whose second endpoint answers 200: the run stops
    there, two requests sent, and reports success for the session. *)
Lemma refresh_first_success_wins_witness :
  exists outcome w',
    refreshCookieWithRoblox (scripted second_endpoint_confirms) seconds_clock
      "S1" cached_world
    = (Normal outcome, w')
    /\ outcome = {| refreshed := true; cookie := Some "S1"; warning := None;
                    refresh_error := None |}
    /\ length (requests w') = 2%nat.
Proof.
  destruct (refresh_first_success_wins (scripted second_endpoint_confirms)
              seconds_clock "S1" cached_world)
    as (outcome & w' & issued & Hrun & Hlog & Hfirst).
  exists outcome, w'. split; [exact Hrun|].
  assert (requests w'
          = [ refresh_request "S1" (Some "T1")
                {| endpoint_url := "https://economy.roblox.com/v1/user/currency";
                   endpoint_method := GET; endpoint_body := None;
                   description := Some "Economy endpoint" |};
              refresh_request "S1" (Some "T1")
                {| endpoint_url := "https://thumbnails.roblox.com/v1/users/avatar";
                   endpoint_method := GET; endpoint_body := None;
                   description := Some "Avatar endpoint" |} ]) as Hrequests.
  { change (requests (snd (Normal outcome, w')) = requests (snd
      (refreshCookieWithRoblox (scripted second_endpoint_confirms) seconds_clock
         "S1" cached_world))).
    by rewrite Hrun. }
  rewrite Hrequests in Hlog. cbn in Hlog. subst issued.
  destruct (Hfirst 1%nat _ (plain_response 200 None "{}") eq_refl eq_refl eq_refl eq_refl)
    as [_ ->].
  split; [reflexivity|]. by rewrite Hrequests.
Defined.


(** C8 fails on the code.  A validation of session S1 with a cached token
    sends one request, the identity request, and sends it with no
    [redirect] option: node-fetch follows redirects for it. *)
Theorem validator_follows_redirects :
  requests (snd (validateCookieWithRoblox (scripted []) seconds_clock
                   "S1" cached_world))
  = [ identity_request "S1" "T1" ]
  /\ redirect (identity_request "S1" "T1") = None
  /\ follows_redirects (identity_request "S1" "T1") = true.
Proof. split; [|split]; reflexivity. Qed.

(** ** The model at work on the scenarios of the specification *)

(** A rejection followed by an accepted retry: the outcome is valid, with
    the identity read from the body of the retry. *)
Example validate_retry_accepted :
  fst (validateCookieWithRoblox (scripted rejects_once) seconds_clock "S1" new_world)
  = Normal {| valid := true;
              userId := Some (JSJson (JNum "7"));
              username := Some (JSJson (JStr "bob"));
              displayName := Some (JSJson (JStr "Bob"));
              error := None |}.
Proof. reflexivity. Qed.

(** A second validation within the freshness window uses the cached
    token: it sends the identity request and no probe. *)
Example validate_twice_probes_once :
  let first := validateCookieWithRoblox (scripted rejects_once) seconds_clock
                 "S1" new_world in
  let second := validateCookieWithRoblox (scripted rejects_once) seconds_clock
                  "S1" (snd first) in
  requests (snd second) = requests (snd first) ++ [identity_request "S1" "T2"]
  /\ exists outcome, fst second = Normal outcome /\ valid outcome = true.
Proof. split; [reflexivity|]. eexists. split; reflexivity. Qed.

(** ** The further properties at work on the scenarios *)

(** X3 on a stale entry: the lookup five minutes later evicts it, and the
    lookup after that finds nothing to do. *)
Lemma lookup_miss_is_stable_witness :
  csrfTokens (snd (getStoredCSRFToken late_clock "S1" cached_world)) !! "S1" = None
  /\ getStoredCSRFToken late_clock "S1"
       (snd (getStoredCSRFToken late_clock "S1" cached_world))
     = (Normal None, snd (getStoredCSRFToken late_clock "S1" cached_world)).
Proof. apply (lookup_miss_is_stable late_clock "S1" cached_world). reflexivity. Defined.

(** X5 on two sessions: a validation and a refresh of S1 leave the entry
    of S2 alone. *)
Lemma other_sessions_untouched_witness :
  csrfTokens (snd (validateCookieWithRoblox (scripted keeps_rejecting) seconds_clock
                     "S1" two_sessions)) !! "S2"
  = Some {| token := "T9"; timestamp := 0 |}
  /\ csrfTokens (snd (refreshCookieWithRoblox (scripted keeps_rejecting) seconds_clock
                        "S1" two_sessions)) !! "S2"
     = Some {| token := "T9"; timestamp := 0 |}.
Proof.
  destruct (other_sessions_untouched (scripted keeps_rejecting) seconds_clock
              "S1" "S2" two_sessions ltac:(discriminate))
    as (_ & _ & Hvalidate & Hrefresh).
  split; [rewrite Hvalidate|rewrite Hrefresh]; reflexivity.
Defined.

(** X6 on a process that has just started: the cache is empty, and after
    a validation that stored two tokens it holds no empty one. *)
Lemma cache_tokens_stay_nonempty_witness :
  tokens_nonempty
    (snd (validateCookieWithRoblox (scripted keeps_rejecting) seconds_clock
            "S1" new_world)).
Proof.
  apply (cache_tokens_stay_nonempty (scripted keeps_rejecting) seconds_clock
           "S1" new_world).
  intros session data Hdata. cbn [new_world csrfTokens] in Hdata.
  by rewrite lookup_empty in Hdata.
Defined.

(** X8 on a cached token: the first request is the identity request with
    T1. *)
Lemma validate_cache_hit_witness :
  exists outcome w' later,
    validateCookieWithRoblox (scripted []) seconds_clock "S1" cached_world
    = (Normal outcome, w')
    /\ requests w' = requests cached_world ++ identity_request "S1" "T1" :: later.
Proof.
  apply (validate_cache_hit (scripted []) seconds_clock "S1" cached_world
           {| token := "T1"; timestamp := 0 |});
    [reflexivity|discriminate|reflexivity].
Defined.

(** X9 on a platform that never hands out a token. *)
Lemma validate_without_token_witness :
  validateCookieWithRoblox (scripted []) seconds_clock "S1" new_world
  = (Normal {| valid := false; userId := None; username := None;
               displayName := None;
               error := Some "Could not obtain CSRF token for validation" |},
     {| csrfTokens := ∅;
        requests := probes "S1" csrf_endpoints 4;
        clock_reads := 0 |})
  /\ identity_requests (probes "S1" csrf_endpoints 4) = 0%nat.
Proof.
  apply (validate_without_token (scripted []) seconds_clock "S1" new_world
           None new_world); [reflexivity|reflexivity|].
  intros i. unfold probe_offer, probe_answer.
  destruct (csrf_endpoints !! i); [|reflexivity].
  unfold scripted. by destruct (length _).
Defined.

(** X10 on a session that is forbidden: one identity request, then the
    error for a 403 without marker. *)
Lemma validate_stops_without_rejection_witness :
  snd (validateCookieWithRoblox (scripted session_forbidden) seconds_clock
         "S1" new_world)
  = logged (identity_request "S1" "T1")
      (cached "S1" "T1" 1000
         (logged (probe_request "S1"
                    {| endpoint_url := "https://auth.roblox.com/v2/login";
                       endpoint_method := POST; endpoint_body := None;
                       description := None |})
                 new_world))
  /\ fst (validateCookieWithRoblox (scripted session_forbidden) seconds_clock
            "S1" new_world)
     = Normal (invalid
                 "Access forbidden (403). Cookie may have insufficient permissions.").
Proof.
  destruct (validate_stops_without_rejection (scripted session_forbidden)
              seconds_clock "S1" new_world "T1"
              (cached "S1" "T1" 1000
                 (logged (probe_request "S1"
                            {| endpoint_url := "https://auth.roblox.com/v2/login";
                               endpoint_method := POST; endpoint_body := None;
                               description := None |})
                         new_world)))
    as (Hstate & Hforbidden & _).
  - reflexivity.
  - intros response responseText [= <-] _ [= <-]. reflexivity.
  - split; [exact Hstate|].
    apply (Hforbidden (plain_response 403 None "Forbidden") "Forbidden");
      reflexivity.
Defined.

(** X11 on an accepted session: the outcome carries the identity of the
    body. *)
Lemma validate_accepts_identity_witness :
  fst (validateCookieWithRoblox (scripted session_accepted) seconds_clock
         "S1" new_world)
  = Normal {| valid := true;
              userId := Some (JSJson (JNum "7"));
              username := Some (JSJson (JStr "bob"));
              displayName := Some (JSJson (JStr "Bob"));
              error := None |}.
Proof.
  destruct (validate_accepts_identity (scripted session_accepted) seconds_clock
              "S1" new_world "T1"
              (cached "S1" "T1" 1000
                 (logged (probe_request "S1"
                            {| endpoint_url := "https://auth.roblox.com/v2/login";
                               endpoint_method := POST; endpoint_body := None;
                               description := None |})
                         new_world))
              identity_response eq_refl eq_refl eq_refl)
    as (outcome & Hrun & Houtcome).
  rewrite Hrun. cbn in Houtcome. rewrite Houtcome. reflexivity.
Defined.

(** The validator on a user whose name is an object with a [toString]
    property: the line written to the console throws, and the outcome is
    an error one although the platform accepted the session. *)
Example validate_unprintable_name :
  exists message,
    fst (validateCookieWithRoblox (scripted unprintable_name) seconds_clock
           "S1" new_world)
    = Normal (invalid message).
Proof. eexists. vm_compute. reflexivity. Qed.

(** X14 on a cached token: the first request goes to the economy
    endpoint with T1. *)
Lemma refresh_cache_hit_witness :
  exists outcome w' later,
    refreshCookieWithRoblox (scripted []) seconds_clock "S1" cached_world
    = (Normal outcome, w')
    /\ requests w'
       = requests cached_world
         ++ refresh_request "S1" (Some "T1")
              {| endpoint_url := "https://economy.roblox.com/v1/user/currency";
                 endpoint_method := GET; endpoint_body := None;
                 description := Some "Economy endpoint" |}
         :: later.
Proof.
  apply (refresh_cache_hit (scripted []) seconds_clock "S1" cached_world
           {| token := "T1"; timestamp := 0 |});
    [reflexivity|discriminate|reflexivity].
Defined.

(** X15 on an expired session: the refresh reports the validation's
    error and sends nothing to a session-extending endpoint. *)
Lemma refresh_invalid_session_witness :
  exists w1 issued,
    refreshCookieWithRoblox (scripted session_expired) seconds_clock "S1" new_world
    = (Normal {| refreshed := false; cookie := None; warning := None;
                 refresh_error :=
                   Some "Cannot refresh invalid cookie: Cookie is invalid or expired" |},
       w1)
    /\ requests w1 = issued
    /\ Forall (fun request => is_refresh_request request = false) issued.
Proof.
  destruct (refresh_invalid_session (scripted session_expired) seconds_clock
              "S1" new_world None new_world
              (invalid "Cookie is invalid or expired")
              (logged (identity_request "S1" "T1")
                 (cached "S1" "T1" 1000
                    (logged (probe_request "S1"
                               {| endpoint_url := "https://auth.roblox.com/v2/login";
                                  endpoint_method := POST; endpoint_body := None;
                                  description := None |})
                            new_world))))
    as (message & issued & Hmessage & Hrun & Hlog & Hissued);
    try reflexivity.
  injection Hmessage as <-.
  eexists _, issued. split; [exact Hrun|]. split; [exact Hlog|exact Hissued].
Defined.

(** X17 on a platform that rejects the cached token and withholds a new
    one: the avatar endpoint is asked with a [null] token. *)
Lemma refresh_goes_on_with_refetched_token_witness :
  exists outcome w' later,
    refreshCookieWithRoblox (scripted rejects_and_withholds) seconds_clock
      "S1" cached_world
    = (Normal outcome, w')
    /\ requests w'
       = (refresh_request "S1" (Some "T1")
            {| endpoint_url := "https://economy.roblox.com/v1/user/currency";
               endpoint_method := GET; endpoint_body := None;
               description := Some "Economy endpoint" |}
          :: probes "S1" csrf_endpoints 4)
         ++ refresh_request "S1" None
              {| endpoint_url := "https://thumbnails.roblox.com/v1/users/avatar";
                 endpoint_method := GET; endpoint_body := None;
                 description := Some "Avatar endpoint" |}
         :: later.
Proof.
  apply (refresh_goes_on_with_refetched_token (scripted rejects_and_withholds)
           seconds_clock "S1" cached_world
           {| token := "T1"; timestamp := 0 |}
           (plain_response 403 None "Token Validation Failed")
           "Token Validation Failed" None
           {| csrfTokens := csrfTokens cached_world;
              requests :=
                refresh_request "S1" (Some "T1")
                  {| endpoint_url := "https://economy.roblox.com/v1/user/currency";
                     endpoint_method := GET; endpoint_body := None;
                     description := Some "Economy endpoint" |}
                :: probes "S1" csrf_endpoints 4;
              clock_reads := 1 |});
    try reflexivity; try discriminate.
  intros retryResponse. unfold scripted. cbn. by intros [= <-].
Defined.

(** X1 on a process that has just started: a token stored at second 1 is
    returned by the lookup at second 2, and is gone for a lookup five
    minutes later. *)
Lemma store_then_lookup_witness :
  fst (getStoredCSRFToken seconds_clock "S1"
         (snd (storeCSRFToken seconds_clock "S1" "T1" new_world)))
  = Normal (Some "T1")
  /\ fst (getStoredCSRFToken late_clock "S1"
            (snd (storeCSRFToken late_clock "S1" "T1" cached_world)))
     = Normal (Some "T1").
Proof.
  split.
  - rewrite (proj1 (store_then_lookup seconds_clock "S1" "T1" new_world));
      reflexivity.
  - rewrite (proj1 (store_then_lookup late_clock "S1" "T1" cached_world));
      reflexivity.
Defined.
